(** * Leap Motion controller glue of the viewer

    A shallow embedding of [indra/newview/llleapmotioncontroller.cpp]:
    the listener object [LLLMImpl] with its SDK callbacks, the per-frame
    poll [stepFrame], the five controller modes and the public wrapper
    [LLLeapMotionController].

    - Device numbers are IEEE binary32 values ([spec_float] at precision 24)
      with the operations of the specification of floats of the library.
    - The mutable state is threaded explicitly: the fields of [LLLMImpl] and
      the function-local statics of the modes form the [World].
    - Calls into the host (agent, camera, gesture manager, log) are recorded
      in a trace of [Event]s, in program order.
    - Operations that C++ leaves undefined (an index past the end of a list,
      a division by a zero count) are recorded in a list of [Fault]s while
      the computation goes on with the IEEE result, as the hardware does. *)

From Stdlib Require Import ZArith List Bool String Lia.
From Stdlib Require Import Floats.SpecFloat.
Import ListNotations.
Local Open Scope Z_scope.

(* ================================================================== *)
(** * Machine numbers *)

(** [S32] with its wrap-around. *)
Definition S32_wrap (v : Z) : Z := (v + 2 ^ 31) mod 2 ^ 32 - 2 ^ 31.

(** [F32]: IEEE binary32. *)
Definition F32 := spec_float.
(** [F64]: IEEE binary64, the type of the unsuffixed literals. *)
Definition F64 := spec_float.

Definition F32_of_Z (n : Z) : F32 := binary_normalize 24 128 n 0 false.
Definition F64_of_Z (n : Z) : F64 := binary_normalize 53 1024 n 0 false.

(** Promotion of a [float] operand to [double]: exact. *)
Definition F32_to_F64 (a : F32) : F64 :=
  match a with
  | S754_finite s m e => binary_normalize 53 1024 (cond_Zopp s (Zpos m)) e s
  | _ => a
  end.

(** Conversion of a [float] to [S32]: truncation toward zero; out of range
    (and NaN) gives the "integer indefinite" value of the x86 conversion. *)
Definition F32_to_S32 (a : F32) : Z :=
  match a with
  | S754_zero _ => 0
  | S754_finite s m e =>
      let v := match e with
               | Zneg p => Z.quot (cond_Zopp s (Zpos m)) (2 ^ Zpos p)
               | _ => cond_Zopp s (Zpos m) * 2 ^ e
               end in
      if (- 2 ^ 31 <=? v) && (v <? 2 ^ 31) then v else - 2 ^ 31
  | _ => - 2 ^ 31
  end.

(** The comparisons of C on floats: all false on NaN. *)
Definition flt (a b : spec_float) : bool := SFltb a b.
Definition fgt (a b : spec_float) : bool := SFltb b a.

Definition F32_add (a b : F32) : F32 := SFadd 24 128 a b.
Definition F32_sub (a b : F32) : F32 := SFsub 24 128 a b.
Definition F32_div (a b : F32) : F32 := SFdiv 24 128 a b.
Definition F32_neg (a : F32) : F32 := SFopp a.

(** Modelled from the spec: [llabs] of llmath.h, which is not part of the
    sources of this file; the absolute value of its argument, at the type of
    the argument. *)
Definition llabs (a : F32) : F32 := SFabs a.

(** The literals of the file. *)
Definition LM_DEAD_ZONE : F32 := F32_of_Z 20.
Definition LM_ORBIT_RATE_FACTOR : F32 := F32_of_Z 80.
Definition F64_0_4 : F64 := SFdiv 53 1024 (F64_of_Z 4) (F64_of_Z 10).
Definition F32_minus_half : F32 := binary_normalize 24 128 (-1) (-1) false.

(* ================================================================== *)
(** * The data model of the vendor SDK *)

Module Leap.

Record Vector := mkVector { x : F32; y : F32; z : F32 }.

Definition zero : Vector := mkVector (F32_of_Z 0) (F32_of_Z 0) (F32_of_Z 0).

(** [operator+=] *)
Definition add (a b : Vector) : Vector :=
  mkVector (F32_add (x a) (x b)) (F32_add (y a) (y b)) (F32_add (z a) (z b)).

Record Finger := mkFinger {
  direction : Vector;
  tipPosition : Vector;
  tipVelocity : Vector }.

Record Hand := mkHand {
  fingers : list Finger;
  palmPosition : Vector;
  palmNormal : Vector;
  sphereRadius : F32;
  sphereCenter : Vector }.

Record Frame := mkFrame {
  id : Z;                 (* int64_t *)
  hands : list Hand }.

(** The controller object of the SDK: [frame()] gives its latest frame. *)
Record Controller := mkController { frame : Frame }.

(** What [operator[]] gives for an index that is not in the list. *)
Definition invalid_finger : Finger := mkFinger zero zero zero.
Definition invalid_hand : Hand := mkHand [] zero zero (F32_of_Z 0) zero.

(** [count()] of a list of the SDK. *)
Definition count {A : Type} (l : list A) : Z := Z.of_nat (List.length l).

End Leap.

(* ================================================================== *)
(** * The host application, as this file sees it *)

(** [EStartupState] of llstartup.h (not part of the sources): the
    enumerators by their integer values. *)
Definition EStartupState := Z.

(** What the host answers when asked during one call. *)
Record Host := mkHost {
  LeapmotionTestMode : Z;          (* gSavedSettings.getS32("LeapmotionTestMode") *)
  getFlying : bool;                (* gAgent.getFlying() *)
  getStartupState : EStartupState; (* LLStartUp::getStartupState() *)
  clock : Z }.                     (* the tick count read by the timers *)

Inductive ControlFlag :=
| AGENT_CONTROL_AT_POS
| AGENT_CONTROL_FAST_AT
| AGENT_CONTROL_UP_POS
| AGENT_CONTROL_UP_NEG
| AGENT_CONTROL_FAST_UP.

Inductive Mode :=
| FlyingControlTest
| StreamDataToSL
| GestureDetection1
| MoveAndCamTest1
| DumpDebugInfo.

(** One operand of a chain of [<<] into a stream. *)
Inductive Piece :=
| Text (s : string)
| Float (v : F32)
| Int (v : Z)
| FingerString (f : Leap.Finger).   (* finger.toString() *)

(** The calls that leave the file. [Invoke] records the call of a mode
    function by [stepFrame]. [sendChatFromViewer] is the chat send of
    LLNearbyChatBar: the two calls of it in the source are commented out. *)
Inductive Event :=
| llinfos (msg : list Piece)
| Invoke (m : Mode)
| setFlying (b : bool)
| setControlFlags (mask : list ControlFlag)
| clearControlFlags (mask : list ControlFlag)
| moveYaw (v : F32)
| moveLeftNudge (v : F32)
| unlockView
| setOrbitLeftKey (rate : F32)
| setOrbitRightKey (rate : F32)
| setOrbitInKey (rate : F32)
| setOrbitOutKey (rate : F32)
| setOrbitUpKey (rate : F32)
| setOrbitDownKey (rate : F32)
| triggerAndReviseString (gesture : string)
| sendChatFromViewer (msg : list Piece).

Inductive Fault :=
| IndexOutOfRange (i len : Z)
| DivisionByZero.

(** A place that the run passes without a call: [ChatMessageFormatted] is
    the end of the block of [modeStreamDataToSL] that formats the chat
    message, with the message, where the send is commented out. *)
Inductive Mark :=
| ChatMessageFormatted (msg : list Piece).

(** An action on the avatar, the camera, the chat or the gestures. *)
Definition is_action (e : Event) : bool :=
  match e with
  | llinfos _ | Invoke _ => false
  | _ => true
  end.

Definition is_invoke (e : Event) : bool :=
  match e with Invoke _ => true | _ => false end.

Definition is_chat (e : Event) : bool :=
  match e with sendChatFromViewer _ => true | _ => false end.

Definition is_yaw (e : Event) : bool :=
  match e with moveYaw _ => true | _ => false end.

Definition is_gesture (e : Event) : bool :=
  match e with triggerAndReviseString _ => true | _ => false end.

Definition is_stop_flying (e : Event) : bool :=
  match e with setFlying false => true | _ => false end.

Definition is_start_flying (e : Event) : bool :=
  match e with setFlying true => true | _ => false end.

(** The log line that stands where the gunfire chat would be sent. *)
Definition is_gunfire (e : Event) : bool :=
  match e with
  | llinfos [Text s] => String.eqb s "Sent gunfire chat"
  | _ => false
  end.

(* ================================================================== *)
(** * Timers *)

(** Modelled from the spec: [LLTimer] of lltimer.h, which is not part of the
    sources of this file. An interval timer that rate-limits an action: it
    holds the tick at which it expires; [checkExpirationAndReset] answers
    whether that tick has been reached and, when it has, arms the timer again
    one interval after the present tick. Ticks are microseconds. *)
Record LLTimer := mkTimer { mExpirationTicks : Z }.

Definition setTimerExpirySec (now interval : Z) : LLTimer :=
  mkTimer (now + interval).

Definition checkExpirationAndReset (now interval : Z) (t : LLTimer)
  : bool * LLTimer :=
  if now <? mExpirationTicks t then (false, t)
  else (true, mkTimer (now + interval)).

Definition LLLEAP_YAW_INTERVAL : Z := 75000.        (* 0.075f s *)
Definition LLLEAP_CHAT_MSG_INTERVAL : Z := 200000.  (* 0.200f s *)
Definition LLLEAP_GESTURE_INTERVAL : Z := 3000000.  (* 3.f s *)

(* ================================================================== *)
(** * The state *)

Record LLLMImpl := mkImpl {
  mLMController : option Leap.Controller;  (* Leapmotion's object *)
  mLMConnected : bool;                     (* true if device is connected *)
  mFrameAvailable : bool;                  (* true if there is a new frame *)
  mCurrentFrameID : Z;                     (* id of the most recent frame *)
  mYawTimer : LLTimer;
  mChatMsgTimer : LLTimer;
  mGestureTimer : LLTimer }.

(** The function-local statics of the modes. *)
Record Statics := mkStatics {
  sLMFlyingHysteresis : Z;     (* modeFlyingControlTest *)
  trigger_direction : Z;       (* modeGestureDetection1 *)
  last_num_fingers : Z }.      (* modeGestureDetection1 *)

Record World := mkWorld { impl : LLLMImpl; statics : Statics }.

Definition set_mLMConnected (b : bool) (w : World) : World :=
  let i := impl w in
  mkWorld (mkImpl (mLMController i) b (mFrameAvailable i) (mCurrentFrameID i)
             (mYawTimer i) (mChatMsgTimer i) (mGestureTimer i)) (statics w).

Definition set_mFrameAvailable (b : bool) (w : World) : World :=
  let i := impl w in
  mkWorld (mkImpl (mLMController i) (mLMConnected i) b (mCurrentFrameID i)
             (mYawTimer i) (mChatMsgTimer i) (mGestureTimer i)) (statics w).

Definition set_mCurrentFrameID (v : Z) (w : World) : World :=
  let i := impl w in
  mkWorld (mkImpl (mLMController i) (mLMConnected i) (mFrameAvailable i) v
             (mYawTimer i) (mChatMsgTimer i) (mGestureTimer i)) (statics w).

Definition set_mYawTimer (t : LLTimer) (w : World) : World :=
  let i := impl w in
  mkWorld (mkImpl (mLMController i) (mLMConnected i) (mFrameAvailable i)
             (mCurrentFrameID i) t (mChatMsgTimer i) (mGestureTimer i))
          (statics w).

Definition set_mChatMsgTimer (t : LLTimer) (w : World) : World :=
  let i := impl w in
  mkWorld (mkImpl (mLMController i) (mLMConnected i) (mFrameAvailable i)
             (mCurrentFrameID i) (mYawTimer i) t (mGestureTimer i))
          (statics w).

Definition set_mGestureTimer (t : LLTimer) (w : World) : World :=
  let i := impl w in
  mkWorld (mkImpl (mLMController i) (mLMConnected i) (mFrameAvailable i)
             (mCurrentFrameID i) (mYawTimer i) (mChatMsgTimer i) t)
          (statics w).

Definition set_sLMFlyingHysteresis (v : Z) (w : World) : World :=
  let s := statics w in
  mkWorld (impl w) (mkStatics v (trigger_direction s) (last_num_fingers s)).

Definition set_trigger_direction (v : Z) (w : World) : World :=
  let s := statics w in
  mkWorld (impl w) (mkStatics (sLMFlyingHysteresis s) v (last_num_fingers s)).

Definition set_last_num_fingers (v : Z) (w : World) : World :=
  let s := statics w in
  mkWorld (impl w) (mkStatics (sLMFlyingHysteresis s) (trigger_direction s) v).

(** The statics as the program starts. *)
Definition initial_statics : Statics := mkStatics 0 (-1) 0.

(** [LLLMImpl::LLLMImpl], with the controller object it creates and the
    tick at which the timers are armed. *)
Definition LLLMImpl_new (controller : Leap.Controller) (now : Z) : LLLMImpl :=
  mkImpl (Some controller) false false 0
    (setTimerExpirySec now LLLEAP_YAW_INTERVAL)
    (setTimerExpirySec now LLLEAP_CHAT_MSG_INTERVAL)
    (setTimerExpirySec now LLLEAP_GESTURE_INTERVAL).

Definition initial_world (controller : Leap.Controller) (now : Z) : World :=
  mkWorld (LLLMImpl_new controller now) initial_statics.

(* ================================================================== *)
(** * Computations: state, trace of calls, faults *)

Record Outcome (A : Type) := mkOutcome {
  value : A;
  world : World;
  trace : list Event;
  faults : list Fault;
  marks : list Mark }.

Arguments mkOutcome {A}.
Arguments value {A}.
Arguments world {A}.
Arguments trace {A}.
Arguments faults {A}.
Arguments marks {A}.

Definition M (A : Type) : Type := World -> Outcome A.

Definition ret {A : Type} (a : A) : M A :=
  fun w => mkOutcome a w [] [] [].

Definition bind {A B : Type} (m : M A) (k : A -> M B) : M B :=
  fun w =>
    let o1 := m w in
    let o2 := k (value o1) (world o1) in
    mkOutcome (value o2) (world o2)
      (trace o1 ++ trace o2) (faults o1 ++ faults o2)
      (marks o1 ++ marks o2).

Notation "x <- c1 ;; c2" := (bind c1 (fun x => c2))
  (at level 61, c1 at next level, right associativity).
Notation "c1 ;; c2" := (bind c1 (fun _ => c2))
  (at level 61, right associativity).

Definition get {A : Type} (f : World -> A) : M A :=
  fun w => mkOutcome (f w) w [] [] [].

Definition modify (f : World -> World) : M unit :=
  fun w => mkOutcome tt (f w) [] [] [].

Definition emit (e : Event) : M unit :=
  fun w => mkOutcome tt w [e] [] [].

Definition fault (f : Fault) : M unit :=
  fun w => mkOutcome tt w [] [f] [].

Definition mark (k : Mark) : M unit :=
  fun w => mkOutcome tt w [] [] [k].

(** [l[i]]: the element, or the invalid object of the SDK and a fault. *)
Definition at_index {A : Type} (l : list A) (i : Z) (invalid : A) : M A :=
  if (0 <=? i) && (i <? Leap.count l)
  then ret (nth (Z.to_nat i) l invalid)
  else fault (IndexOutOfRange i (Leap.count l)) ;; ret invalid.

(** [a / n] for a float [a] and an integer count [n]. *)
Definition div_count (a : F32) (n : Z) : M F32 :=
  (if n =? 0 then fault DivisionByZero else ret tt) ;;
  ret (F32_div a (F32_of_Z n)).

Definition mYawTimer_checkExpirationAndReset (env : Host) (interval : Z)
  : M bool :=
  fun w =>
    let r := checkExpirationAndReset (clock env) interval (mYawTimer (impl w)) in
    mkOutcome (fst r) (set_mYawTimer (snd r) w) [] [] [].

Definition mChatMsgTimer_checkExpirationAndReset (env : Host) (interval : Z)
  : M bool :=
  fun w =>
    let r := checkExpirationAndReset (clock env) interval
               (mChatMsgTimer (impl w)) in
    mkOutcome (fst r) (set_mChatMsgTimer (snd r) w) [] [] [].

Definition mGestureTimer_checkExpirationAndReset (env : Host) (interval : Z)
  : M bool :=
  fun w =>
    let r := checkExpirationAndReset (clock env) interval
               (mGestureTimer (impl w)) in
    mkOutcome (fst r) (set_mGestureTimer (snd r) w) [] [] [].

(* ================================================================== *)
(** * The callbacks of the SDK *)

Definition onInit (controller : Leap.Controller) : M unit :=
  emit (llinfos [Text "Initialized"]).

Definition onConnect (controller : Leap.Controller) : M unit :=
  emit (llinfos [Text "Connected"]) ;;
  modify (set_mLMConnected true) ;;
  modify (set_mCurrentFrameID 0).

Definition onDisconnect (controller : Leap.Controller) : M unit :=
  emit (llinfos [Text "Disconnected"]) ;;
  modify (set_mLMConnected false).

(** Callback when a new frame is available: it sets a flag so that
    [stepFrame] can pick up new controller data. *)
Definition onFrame (controller : Leap.Controller) : M unit :=
  connected <- get (fun w => mLMConnected (impl w)) ;;
  if connected then
    let frame := Leap.frame controller in
    let frame_id := Leap.id frame in
    current <- get (fun w => mCurrentFrameID (impl w)) ;;
    if negb (frame_id =? current) then
      modify (set_mCurrentFrameID frame_id) ;;
      modify (set_mFrameAvailable true)
    else ret tt
  else ret tt.

(* ================================================================== *)
(** * The controller modes *)

(** The block "Number of fingers controls flying on / off" of
    [modeFlyingControlTest]. *)
Definition flying_on_off (agent_is_flying : bool) (num_fingers : Z)
  : M unit :=
  if (num_fingers =? 0) && agent_is_flying then
    h <- get (fun w => sLMFlyingHysteresis (statics w)) ;;
    if h >? 0 then
      modify (set_sLMFlyingHysteresis (S32_wrap (h - 1)))
    else
      emit (llinfos [Text "LM stop flying"]) ;;
      emit (setFlying false)
  else if (num_fingers >? 2) && negb agent_is_flying then
    emit (llinfos [Text "LM start flying"]) ;;
    emit (setFlying true) ;;
    modify (set_sLMFlyingHysteresis 5)
  else ret tt.

(** The flying controls of [modeFlyingControlTest]: what stands inside
    [if (agent_is_flying)], up to "end flying controls". *)
Definition flying_controls (env : Host) (hand : Leap.Hand) : M unit :=
  let palm_pos := Leap.palmPosition hand in
  let palm_normal := Leap.palmNormal hand in
  let ball_radius := Leap.sphereRadius hand in
  (* Radius of ball controls forward motion *)
  (if fgt ball_radius (F32_of_Z 110) then
     emit (setControlFlags [AGENT_CONTROL_AT_POS; AGENT_CONTROL_FAST_AT])
   else if fgt ball_radius (F32_of_Z 85) then
     emit (setControlFlags [AGENT_CONTROL_AT_POS])
   else
     emit (clearControlFlags [AGENT_CONTROL_AT_POS])) ;;
  (* Height of palm controls moving up and down *)
  (if fgt (Leap.y palm_pos) (F32_of_Z 260) then
     emit (setControlFlags [AGENT_CONTROL_UP_POS; AGENT_CONTROL_FAST_UP])
   else if fgt (Leap.y palm_pos) (F32_of_Z 200) then
     emit (setControlFlags [AGENT_CONTROL_UP_POS])
   else if flt (Leap.y palm_pos) (F32_of_Z 60) then
     emit (setControlFlags [AGENT_CONTROL_FAST_UP; AGENT_CONTROL_UP_NEG])
   else if flt (Leap.y palm_pos) (F32_of_Z 120) then
     emit (setControlFlags [AGENT_CONTROL_UP_NEG])
   else
     emit (clearControlFlags [AGENT_CONTROL_FAST_UP; AGENT_CONTROL_UP_POS;
                              AGENT_CONTROL_UP_NEG])) ;;
  (* Palm normal going left / right controls direction *)
  expired <- mYawTimer_checkExpirationAndReset env LLLEAP_YAW_INTERVAL ;;
  if expired then
    if fgt (F32_to_F64 (Leap.x palm_normal)) F64_0_4 then
      emit (moveYaw (F32_of_Z 1))
    else if flt (F32_to_F64 (Leap.x palm_normal)) (SFopp F64_0_4) then
      emit (moveYaw (F32_of_Z (-1)))
    else ret tt
  else ret tt.

(** This controller mode is used to fly the avatar, going up, down, forward
    and turning. *)
Definition modeFlyingControlTest (env : Host) (hands : list Leap.Hand)
  : M unit :=
  let numHands := Leap.count hands in
  let agent_is_flying := getFlying env in
  h <- get (fun w => sLMFlyingHysteresis (statics w)) ;;
  if (numHands =? 0) && agent_is_flying && (h >? 0) then
    modify (set_sLMFlyingHysteresis (S32_wrap (h - 1))) ;;
    h' <- get (fun w => sLMFlyingHysteresis (statics w)) ;;
    if h' =? 0 then
      emit (llinfos [Text "LM stop flying - look ma, no hands!"]) ;;
      emit (setFlying false)
    else ret tt
  else if numHands =? 1 then
    (* Get the first hand *)
    hand <- at_index hands 0 Leap.invalid_hand ;;
    (* Check if the hand has any fingers *)
    let finger_list := Leap.fingers hand in
    let num_fingers := Leap.count finger_list in
    flying_on_off agent_is_flying num_fingers ;;
    if agent_is_flying then flying_controls env hand else ret tt
  else ret tt.

(** The chat message of [modeStreamDataToSL]:
    "/2343 LM,<palm pos>,<palm normal>,<sphere center>,<sphere radius>". *)
Definition status_chat_msg (hand : Leap.Hand) : list Piece :=
  let palm_pos := Leap.palmPosition hand in
  let palm_normal := Leap.palmNormal hand in
  let ball_radius := Leap.sphereRadius hand in
  let ball_center := Leap.sphereCenter hand in
  [Text "/2343 LM,";
   Text "<"; Float (Leap.x palm_pos); Text ","; Float (Leap.y palm_pos);
   Text ","; Float (Leap.z palm_pos); Text ">,";
   Text "<"; Float (Leap.x palm_normal); Text ","; Float (Leap.y palm_normal);
   Text ","; Float (Leap.z palm_normal); Text ">,";
   Text "<"; Float (Leap.x ball_center); Text ","; Float (Leap.y ball_center);
   Text ","; Float (Leap.z ball_center); Text ">,"; Float ball_radius].

(** This experimental mode sends chat messages into SL on a back channel.
    The send itself is commented out in the source. *)
Definition modeStreamDataToSL (env : Host) (hands : list Leap.Hand)
  : M unit :=
  let numHands := Leap.count hands in
  go <- (if numHands =? 1
         then mChatMsgTimer_checkExpirationAndReset env LLLEAP_CHAT_MSG_INTERVAL
         else ret false) ;;
  if go then
    (* Get the first (and only) hand *)
    hand <- at_index hands 0 Leap.invalid_hand ;;
    (* //LLNearbyChatBar::sendChatFromViewer(status_chat_msg.str(), ...); *)
    mark (ChatMessageFormatted (status_chat_msg hand))
  else ret tt.

(** Negative Z is into the screen, and the largest component: the test of
    the two-finger branch, on floats. *)
Definition points_into_screen (dir : Leap.Vector) : bool :=
  let abs_z_dir := llabs (Leap.z dir) in
  flt (Leap.z dir) F32_minus_half &&
  fgt abs_z_dir (llabs (Leap.x dir)) &&
  fgt abs_z_dir (llabs (Leap.y dir)).

(** The same test in the one-finger branch, where [abs_z_dir] is an [S32]
    and the literal is a [double]. *)
Definition points_into_screen_S32 (dir : Leap.Vector) : bool :=
  let abs_z_dir := F32_to_S32 (llabs (Leap.z dir)) in
  flt (F32_to_F64 (Leap.z dir)) (F32_to_F64 F32_minus_half) &&
  fgt (F32_of_Z abs_z_dir) (llabs (Leap.x dir)) &&
  fgt (F32_of_Z abs_z_dir) (llabs (Leap.y dir)).

Definition vector_pieces (v : Leap.Vector) : list Piece :=
  [Float (Leap.x v); Text ", "; Float (Leap.y v); Text ", "; Float (Leap.z v)].

(** This mode tries to detect simple hand motion and either triggers an
    avatar gesture or sends a chat message into SL in response. *)
Definition modeGestureDetection1 (env : Host) (hands : list Leap.Hand)
  : M unit :=
  let numHands := Leap.count hands in
  if numHands =? 1 then
    (* Get the first hand *)
    hand <- at_index hands 0 Leap.invalid_hand ;;
    let finger_list := Leap.fingers hand in
    let num_fingers := Leap.count finger_list in
    (if num_fingers =? 1 then
       (* One finger ... possibly reset *)
       finger <- at_index finger_list 0 Leap.invalid_finger ;;
       let finger_dir := Leap.direction finger in
       (if points_into_screen_S32 finger_dir then
          emit (llinfos ([Text "finger direction is "]
                           ++ vector_pieces finger_dir
                           ++ [Text ", position "]
                           ++ vector_pieces (Leap.tipPosition finger)
                           ++ [Text ", velocity "]
                           ++ vector_pieces (Leap.tipVelocity finger)))
        else ret tt) ;;
       td <- get (fun w => trigger_direction (statics w)) ;;
       if negb (td =? -1) then
         emit (llinfos [Text "Reset trigger_direction - one finger"]) ;;
         modify (set_trigger_direction (-1))
       else ret tt
     else if num_fingers =? 2 then
       barrel_finger <- at_index finger_list 0 Leap.invalid_finger ;;
       let barrel_finger_dir := Leap.direction barrel_finger in
       td <- get (fun w => trigger_direction (statics w)) ;;
       if points_into_screen barrel_finger_dir then
         thumb_finger <- at_index finger_list 1 Leap.invalid_finger ;;
         let thumb_finger_dir := Leap.direction thumb_finger in
         let thumb_finger_vel := Leap.tipVelocity thumb_finger in
         if flt (Leap.x thumb_finger_dir) (Leap.x barrel_finger_dir) then
           (* Trigger gunfire *)
           fire <- (if (td <? 0) &&
                       fgt (Leap.x thumb_finger_vel) (F32_of_Z 50) &&
                       flt (Leap.z thumb_finger_vel) (F32_of_Z (-50))
                    then mChatMsgTimer_checkExpirationAndReset env
                           LLLEAP_CHAT_MSG_INTERVAL
                    else ret false) ;;
           if fire then
             (* //LLNearbyChatBar::sendChatFromViewer("/2343 LM2 gunfire", ...); *)
             modify (set_trigger_direction 1) ;;
             emit (llinfos [Text "Sent gunfire chat"])
           else if (td >? 0) &&
                   flt (Leap.x thumb_finger_vel) (F32_of_Z (-50)) &&
                   fgt (Leap.z thumb_finger_vel) (F32_of_Z 50) then
             modify (set_trigger_direction (-1)) ;;
             emit (llinfos [Text "Reset trigger_direction"])
           else ret tt
         else ret tt
       else if negb (td =? -1) then
         emit (llinfos [Text "Reset trigger_direction - hand pos"]) ;;
         modify (set_trigger_direction (-1))
       else ret tt
     else
       last <- get (fun w => last_num_fingers (statics w)) ;;
       if (num_fingers =? 5) && (num_fingers =? last) then
         expired <- mGestureTimer_checkExpirationAndReset env
                      LLLEAP_GESTURE_INTERVAL ;;
         if expired then
           (* figure out a gesture to trigger *)
           emit (triggerAndReviseString "/overhere")
         else ret tt
       else ret tt) ;;
    modify (set_last_num_fingers num_fingers)
  else ret tt.

(** The loop [for (size_t i = 0; i < num_fingers; ++i)] that adds up the tip
    positions, by the number [n] of iterations that remain. *)
Fixpoint sum_tipPosition (finger_list : list Leap.Finger) (n : nat) (i : Z)
  (pos : Leap.Vector) : M Leap.Vector :=
  match n with
  | O => ret pos
  | S n' =>
      finger <- at_index finger_list i Leap.invalid_finger ;;
      sum_tipPosition finger_list n' (i + 1)
        (Leap.add pos (Leap.tipPosition finger))
  end.

(** [Leap::Vector(v.x/n, v.y/n, v.z/n)] *)
Definition vector_div_count (v : Leap.Vector) (n : Z) : M Leap.Vector :=
  vx <- div_count (Leap.x v) n ;;
  vy <- div_count (Leap.y v) n ;;
  vz <- div_count (Leap.z v) n ;;
  ret (Leap.mkVector vx vy vz).

(** One axis of the camera in the two-finger branch. *)
Definition orbit_axis (v : F32) (neg_key pos_key : F32 -> Event) : M unit :=
  if flt v (F32_neg LM_DEAD_ZONE) then
    emit unlockView ;;
    let orbit_rate :=
      F32_div (F32_sub (llabs v) LM_DEAD_ZONE) LM_ORBIT_RATE_FACTOR in
    emit (neg_key orbit_rate)
  else if fgt v LM_DEAD_ZONE then
    emit unlockView ;;
    let orbit_rate := F32_div (F32_sub v LM_DEAD_ZONE) LM_ORBIT_RATE_FACTOR in
    emit (pos_key orbit_rate)
  else ret tt.

(** This mode tries to move the avatar and camera in Second Life. *)
Definition modeMoveAndCamTest1 (env : Host) (hands : list Leap.Hand)
  : M unit :=
  let numHands := Leap.count hands in
  if numHands =? 1 then
    (* Get the first hand *)
    hand <- at_index hands 0 Leap.invalid_hand ;;
    let finger_list := Leap.fingers hand in
    let num_fingers := Leap.count finger_list in
    sum <- sum_tipPosition finger_list (Z.to_nat num_fingers) 0 Leap.zero ;;
    pos <- vector_div_count sum num_fingers ;;
    if num_fingers =? 1 then
      (* 1 finger - move avatar *)
      (if flt (Leap.x pos) (F32_neg LM_DEAD_ZONE) then
         emit (moveLeftNudge (F32_of_Z 1))
       else if fgt (Leap.x pos) LM_DEAD_ZONE then
         emit (moveLeftNudge (F32_of_Z (-1)))
       else ret tt) ;;
      (if flt (Leap.y pos) (F32_neg LM_DEAD_ZONE) then
         emit (moveYaw (F32_of_Z (-1)))
       else if fgt (Leap.y pos) LM_DEAD_ZONE then
         emit (moveYaw (F32_of_Z 1))
       else ret tt)
    else if num_fingers =? 2 then
      (* 2 fingers - move camera around *)
      orbit_axis (Leap.x pos) setOrbitLeftKey setOrbitRightKey ;;
      orbit_axis (Leap.z pos) setOrbitInKey setOrbitOutKey ;;
      orbit_axis (Leap.y pos) setOrbitUpKey setOrbitDownKey
    else ret tt
  else ret tt.

(** The loop of [modeDumpDebugInfo]: tip positions and directions are added
    up and every finger is logged. *)
Fixpoint sum_and_log_fingers (finger_list : list Leap.Finger) (n : nat) (i : Z)
  (pos direction : Leap.Vector) : M (Leap.Vector * Leap.Vector) :=
  match n with
  | O => ret (pos, direction)
  | S n' =>
      finger <- at_index finger_list i Leap.invalid_finger ;;
      emit (llinfos [Text "Finger "; Int i; Text " string is ";
                     FingerString finger]) ;;
      sum_and_log_fingers finger_list n' (i + 1)
        (Leap.add pos (Leap.tipPosition finger))
        (Leap.add direction (Leap.direction finger))
  end.

(** This controller mode just dumps out a bunch of the device data. *)
Definition modeDumpDebugInfo (env : Host) (hands : list Leap.Hand)
  : M unit :=
  let numHands := Leap.count hands in
  if numHands =? 1 then
    (* Get the first hand *)
    hand <- at_index hands 0 Leap.invalid_hand ;;
    let finger_list := Leap.fingers hand in
    let num_fingers := Leap.count finger_list in
    (if num_fingers >=? 1 then
       (* Calculate the hand's average finger tip position *)
       sums <- sum_and_log_fingers finger_list (Z.to_nat num_fingers) 0
                 Leap.zero Leap.zero ;;
       pos <- vector_div_count (fst sums) num_fingers ;;
       direction <- vector_div_count (snd sums) num_fingers ;;
       emit (llinfos ([Text "Hand has "; Int num_fingers;
                       Text " fingers with average tip position"; Text " ("]
                        ++ vector_pieces pos ++ [Text ")"; Text " direction ("]
                        ++ vector_pieces direction ++ [Text ")"]))
     else ret tt) ;;
    emit (llinfos ([Text "Palm pos "] ++ vector_pieces (Leap.palmPosition hand)
                     ++ [Text ".   Normal: "]
                     ++ vector_pieces (Leap.palmNormal hand))) ;;
    emit (llinfos ([Text "Ball pos "] ++ vector_pieces (Leap.sphereCenter hand)
                     ++ [Text ", radius "; Float (Leap.sphereRadius hand)]))
  else ret tt.

(* ================================================================== *)
(** * The poll of the viewer *)

(** This is called every SL viewer frame. *)
Definition stepFrame (env : Host) : M unit :=
  controller <- get (fun w => mLMController (impl w)) ;;
  available <- get (fun w => mFrameAvailable (impl w)) ;;
  connected <- get (fun w => mLMConnected (impl w)) ;;
  match controller with
  | Some c =>
      if available && connected then
        modify (set_mFrameAvailable false) ;;
        (* Get the most recent frame *)
        let frame := Leap.frame c in
        let hands := Leap.hands frame in
        let controller_mode := LeapmotionTestMode env in
        if controller_mode =? 0 then
          emit (Invoke FlyingControlTest) ;; modeFlyingControlTest env hands
        else if controller_mode =? 1 then
          emit (Invoke StreamDataToSL) ;; modeStreamDataToSL env hands
        else if controller_mode =? 2 then
          emit (Invoke GestureDetection1) ;; modeGestureDetection1 env hands
        else if controller_mode =? 3 then
          emit (Invoke MoveAndCamTest1) ;; modeMoveAndCamTest1 env hands
        else if controller_mode =? 411 then
          emit (Invoke DumpDebugInfo) ;; modeDumpDebugInfo env hands
        else ret tt
      else ret tt
  | None => ret tt
  end.

(** The function that [Invoke] names. *)
Definition mode_function (m : Mode) : Host -> list Leap.Hand -> M unit :=
  match m with
  | FlyingControlTest => modeFlyingControlTest
  | StreamDataToSL => modeStreamDataToSL
  | GestureDetection1 => modeGestureDetection1
  | MoveAndCamTest1 => modeMoveAndCamTest1
  | DumpDebugInfo => modeDumpDebugInfo
  end.

(* ================================================================== *)
(** * The public glue layer *)

Module LLLeapMotionController.

(** [mController] and, next to it, the statics of the program. *)
Record t := mk { mController : option LLLMImpl; globals : Statics }.

Section Startup.

(** [STATE_STARTED] of llstartup.h. *)
Variable STATE_STARTED : EStartupState.

(** Called every viewer frame. The result is the object after the call
    with the calls and faults of the call. *)
Definition stepFrame (env : Host) (c : t)
  : t * list Event * list Fault :=
  match mController c with
  | Some i =>
      if STATE_STARTED =? getStartupState env then
        let o := stepFrame env (mkWorld i (globals c)) in
        (mk (Some (impl (world o))) (statics (world o)),
         trace o, faults o)
      else (c, [], [])
  | None => (c, [], [])
  end.

End Startup.

End LLLeapMotionController.

(* ================================================================== *)
(** * Runs of the whole object *)

(** What can happen to the object: a callback of the SDK, the SDK putting a
    new latest frame into the controller object, or the poll of the viewer. *)
Inductive Input :=
| OnInit (c : Leap.Controller)
| OnConnect (c : Leap.Controller)
| OnDisconnect (c : Leap.Controller)
| OnFrame (c : Leap.Controller)
| NewFrame (f : Leap.Frame)
| StepFrame (env : Host).

Definition set_frame (f : Leap.Frame) (w : World) : World :=
  let i := impl w in
  mkWorld (mkImpl (match mLMController i with
                   | Some _ => Some (Leap.mkController f)
                   | None => None
                   end)
             (mLMConnected i) (mFrameAvailable i) (mCurrentFrameID i)
             (mYawTimer i) (mChatMsgTimer i) (mGestureTimer i)) (statics w).

Definition step (i : Input) : M unit :=
  match i with
  | OnInit c => onInit c
  | OnConnect c => onConnect c
  | OnDisconnect c => onDisconnect c
  | OnFrame c => onFrame c
  | NewFrame f => modify (set_frame f)
  | StepFrame env => stepFrame env
  end.

(** One step of a run: the input, the world it met and what came out. *)
Record Obs := mkObs { input : Input; before : World; out : Outcome unit }.

Definition after (o : Obs) : World := world (out o).
Definition events (o : Obs) : list Event := trace (out o).

Fixpoint exec (ins : list Input) (w : World) : list Obs :=
  match ins with
  | [] => []
  | i :: rest =>
      let o := step i w in
      mkObs i w o :: exec rest (world o)
  end.

(** The poll of step [o] reaches the mode functions: the hands it reads and
    the answers of the host. *)
Definition polled (o : Obs) : option (Host * list Leap.Hand) :=
  match input o with
  | StepFrame env =>
      match mLMController (impl (before o)) with
      | Some c =>
          if mFrameAvailable (impl (before o)) && mLMConnected (impl (before o))
          then Some (env, Leap.hands (Leap.frame c))
          else None
      | None => None
      end
  | _ => None
  end.

(** The poll of step [o] evaluates mode [m]. *)
Definition evaluates (m : Z) (o : Obs) : option (Host * list Leap.Hand) :=
  match polled o with
  | Some (env, hands) =>
      if LeapmotionTestMode env =? m then Some (env, hands) else None
  | None => None
  end.

(** The tick of the step, when it is a poll. *)
Definition tick (o : Obs) : Z :=
  match input o with
  | StepFrame env => clock env
  | _ => 0
  end.

(** The setting of the header comment of the source: which mode a value of
    "LeapmotionTestMode" selects. *)
Definition mode_of_setting (v : Z) : option Mode :=
  if v =? 0 then Some FlyingControlTest
  else if v =? 1 then Some StreamDataToSL
  else if v =? 2 then Some GestureDetection1
  else if v =? 3 then Some MoveAndCamTest1
  else if v =? 411 then Some DumpDebugInfo
  else None.

(* ================================================================== *)
(** * Properties of computations *)

(** Every event of the computation satisfies [P]. *)
Definition emits_only (P : Event -> bool) {A : Type} (m : M A) : Prop :=
  forall w, forallb P (trace (m w)) = true.

(** The computation relates every world to the world it leaves. *)
Definition keeps (R : World -> World -> Prop) {A : Type} (m : M A) : Prop :=
  forall w, R w (world (m w)).

(** The computation is free of faults. *)
Definition safe {A : Type} (m : M A) : Prop :=
  forall w, faults (m w) = [].

(** The computation passes no marked place. *)
Definition unmarked {A : Type} (m : M A) : Prop :=
  forall w, marks (m w) = [].

(** The computation neither reads nor writes what [R] lets differ. *)
Definition respects (R : World -> World -> Prop) {A : Type} (m : M A)
  : Prop :=
  forall w1 w2, R w1 w2 ->
    value (m w1) = value (m w2) /\ trace (m w1) = trace (m w2) /\
    faults (m w1) = faults (m w2) /\ R (world (m w1)) (world (m w2)).

Definition not_invoke (e : Event) : bool := negb (is_invoke e).
Definition not_chat (e : Event) : bool := negb (is_chat e).
Definition is_log (e : Event) : bool :=
  match e with llinfos _ => true | _ => false end.

(** A log line other than the one of the gunfire. *)
Definition plain_log (e : Event) : bool := is_log e && negb (is_gunfire e).

(** No mode function calls a mode function, and none sends chat. *)
Definition quiet (e : Event) : bool := not_invoke e && not_chat e.

(** The fields of the listener other than the timers are the same. *)
Definition same_flags (w w' : World) : Prop :=
  mLMController (impl w') = mLMController (impl w) /\
  mLMConnected (impl w') = mLMConnected (impl w) /\
  mFrameAvailable (impl w') = mFrameAvailable (impl w) /\
  mCurrentFrameID (impl w') = mCurrentFrameID (impl w).

(** No timer expires earlier than before. *)
Definition timers_later (w w' : World) : Prop :=
  mExpirationTicks (mYawTimer (impl w))
    <= mExpirationTicks (mYawTimer (impl w')) /\
  mExpirationTicks (mChatMsgTimer (impl w))
    <= mExpirationTicks (mChatMsgTimer (impl w')) /\
  mExpirationTicks (mGestureTimer (impl w))
    <= mExpirationTicks (mGestureTimer (impl w')).

(** The worlds are the same but for the stored frame id. *)
Definition same_but_frame_id (w w' : World) : Prop :=
  statics w = statics w' /\
  mLMController (impl w) = mLMController (impl w') /\
  mLMConnected (impl w) = mLMConnected (impl w') /\
  mFrameAvailable (impl w) = mFrameAvailable (impl w') /\
  mYawTimer (impl w) = mYawTimer (impl w') /\
  mChatMsgTimer (impl w) = mChatMsgTimer (impl w') /\
  mGestureTimer (impl w) = mGestureTimer (impl w').

(** What belongs to [modeFlyingControlTest] is the same. *)
Definition flying_untouched (w w' : World) : Prop :=
  sLMFlyingHysteresis (statics w') = sLMFlyingHysteresis (statics w) /\
  mYawTimer (impl w') = mYawTimer (impl w).

(** What belongs to the gesture detection is the same. *)
Definition gesture_untouched (w w' : World) : Prop :=
  trigger_direction (statics w') = trigger_direction (statics w) /\
  last_num_fingers (statics w') = last_num_fingers (statics w) /\
  mGestureTimer (impl w') = mGestureTimer (impl w).

(** The timer of the chat messages is the same. *)
Definition chat_untouched (w w' : World) : Prop :=
  mChatMsgTimer (impl w') = mChatMsgTimer (impl w).

(* ================================================================== *)
(** * What the claims speak of *)

(** The hand resets the trigger: one finger; or two fingers with the barrel
    finger not pointing into the screen; or two fingers with the thumb pulled
    back (velocity x < -50 and z > 50). *)
Definition resets_trigger (hand : Leap.Hand) : bool :=
  let finger_list := Leap.fingers hand in
  let num_fingers := Leap.count finger_list in
  if num_fingers =? 1 then true
  else if num_fingers =? 2 then
    let barrel_finger := nth 0 finger_list Leap.invalid_finger in
    let thumb_finger := nth 1 finger_list Leap.invalid_finger in
    if points_into_screen (Leap.direction barrel_finger) then
      flt (Leap.x (Leap.tipVelocity thumb_finger)) (F32_of_Z (-50)) &&
      fgt (Leap.z (Leap.tipVelocity thumb_finger)) (F32_of_Z 50)
    else true
  else false.

(** The stop condition of [modeFlyingControlTest]: no hand while flying, or
    one hand without fingers while flying. *)
Definition stop_condition (env : Host) (hands : list Leap.Hand) : bool :=
  getFlying env &&
  match hands with
  | [] => true
  | [hand] => Leap.count (Leap.fingers hand) =? 0
  | _ => false
  end.

(** The start condition: one hand with more than two fingers while not
    flying. *)
Definition start_condition (env : Host) (hands : list Leap.Hand) : bool :=
  negb (getFlying env) &&
  match hands with
  | [hand] => Leap.count (Leap.fingers hand) >? 2
  | _ => false
  end.

(** What the modes other than the owner emit. *)
Definition no_toggle (e : Event) : bool :=
  negb (is_stop_flying e) && negb (is_start_flying e).

Definition no_trigger (e : Event) : bool :=
  negb (is_gunfire e) && negb (is_gesture e).

(** The poll of step [o] turns the avatar from [modeFlyingControlTest]. *)
Definition yaw_turn (o : Obs) : bool :=
  match evaluates 0 o with
  | Some _ => existsb is_yaw (events o)
  | None => false
  end.

Definition is_chat_formatted (k : Mark) : bool :=
  match k with ChatMessageFormatted _ => true end.

(** Step [o] reaches the place of a chat send: it passes the end of the
    block of [modeStreamDataToSL] that formats the message, or it emits the
    log line of the gunfire branch of [modeGestureDetection1]. *)
Definition chat_attempt (o : Obs) : bool :=
  existsb is_chat_formatted (marks (out o))
  || existsb is_gunfire (events o).

Definition gunfire (o : Obs) : bool := existsb is_gunfire (events o).

Definition gesture_triggered (o : Obs) : bool :=
  existsb is_gesture (events o).

Definition stops_flight (o : Obs) : bool :=
  existsb is_stop_flying (events o).

Definition starts_flight (o : Obs) : bool :=
  existsb is_start_flying (events o).

(** Step [o] finds the timer expired and arms it again, one interval after
    its tick. *)
Definition fires (timer : LLLMImpl -> LLTimer) (interval : Z) (o : Obs)
  : Prop :=
  mExpirationTicks (timer (impl (before o))) <= tick o /\
  timer (impl (after o)) = mkTimer (tick o + interval).

(** Step [o] is an evaluation of [modeFlyingControlTest] whose stop
    condition holds. *)
Definition stop_evaluation (o : Obs) : bool :=
  match evaluates 0 o with
  | Some (env, hands) => stop_condition env hands
  | None => false
  end.

(** Step [o] is an evaluation of [modeFlyingControlTest] whose start
    condition holds. *)
Definition start_evaluation (o : Obs) : bool :=
  match evaluates 0 o with
  | Some (env, hands) => start_condition env hands
  | None => false
  end.

(** Step [o] is an evaluation of [modeFlyingControlTest]. *)
Definition flying_evaluation (o : Obs) : bool :=
  match evaluates 0 o with Some _ => true | None => false end.

(** The number of stop-condition evaluations among the steps. *)
Definition stop_evaluations (l : list Obs) : Z :=
  Z.of_nat (List.length (filter stop_evaluation l)).

(** The number of stop-condition evaluations in a row at the end of the
    evaluations of [modeFlyingControlTest] among the steps. *)
Fixpoint leading_stops (l : list Obs) : Z :=
  match l with
  | o :: rest => if stop_evaluation o then 1 + leading_stops rest else 0
  | [] => 0
  end.

Definition consecutive_stops (l : list Obs) : Z :=
  leading_stops (rev (filter flying_evaluation l)).

(** Step [o] is an evaluation of [modeGestureDetection1] on one hand: the
    finger count of the hand. *)
Definition one_hand_fingers (o : Obs) : option Z :=
  match evaluates 2 o with
  | Some (_, [hand]) => Some (Leap.count (Leap.fingers hand))
  | _ => None
  end.

(** Step [o] is a reset event: an evaluation of [modeGestureDetection1] on
    a hand that resets the trigger, which takes [trigger_direction] back
    to -1. *)
Definition trigger_reset (o : Obs) : bool :=
  match evaluates 2 o with
  | Some (_, [hand]) =>
      resets_trigger hand &&
      negb (trigger_direction (statics (before o)) =? -1) &&
      (trigger_direction (statics (after o)) =? -1)
  | _ => false
  end.

(* ================================================================== *)
(** * Sample device data *)

Definition vec (a b c : Z) : Leap.Vector :=
  Leap.mkVector (F32_of_Z a) (F32_of_Z b) (F32_of_Z c).

(** A finger that points into the screen, at rest. *)
Definition still_finger : Leap.Finger :=
  Leap.mkFinger (vec 0 0 (-1)) (vec 0 150 0) (vec 0 0 0).

(** A hand over the middle of the device with the fingers given. *)
Definition hand_with (fl : list Leap.Finger) : Leap.Hand :=
  Leap.mkHand fl (vec 0 150 0) (vec 0 (-1) 0) (F32_of_Z 90) (vec 0 100 0).

Definition fist : Leap.Hand := hand_with [].
Definition open_hand : Leap.Hand := hand_with (repeat still_finger 5).

Definition frame_of (n : Z) (hs : list Leap.Hand) : Leap.Frame :=
  Leap.mkFrame n hs.

(** The host with the mode, the flying state and the tick given; the
    startup state is 0. *)
Definition host (mode : Z) (flying : bool) (now : Z) : Host :=
  mkHost mode flying 0 now.

(** The SDK delivers frame [n] with the hands [hs], and the viewer polls. *)
Definition feed (n : Z) (hs : list Leap.Hand) (env : Host) : list Input :=
  [NewFrame (frame_of n hs);
   OnFrame (Leap.mkController (frame_of n hs));
   StepFrame env].

Definition three_fingers : Leap.Hand := hand_with (repeat still_finger 3).

(** The device connects; three fingers start the flight; four polls see no
    hand; one poll sees three fingers again; the next sees no hand. *)
Definition flight_run : list Input :=
  OnConnect (Leap.mkController (frame_of 0 []))
  :: feed 1 [three_fingers] (host 0 false 100000)
  ++ feed 2 [] (host 0 true 200000)
  ++ feed 3 [] (host 0 true 300000)
  ++ feed 4 [] (host 0 true 400000)
  ++ feed 5 [] (host 0 true 500000)
  ++ feed 6 [three_fingers] (host 0 true 600000)
  ++ feed 7 [] (host 0 true 700000).

Definition world0 : World :=
  initial_world (Leap.mkController (frame_of 0 [])) 0.

(** A hand that flies and turns left: the palm normal points along x. *)
Definition turning_hand : Leap.Hand :=
  Leap.mkHand (repeat still_finger 5) (vec 0 150 0) (vec 1 0 0)
    (F32_of_Z 90) (vec 0 100 0).

(** Three polls of the turning hand while flying, 50 ms apart. *)
Definition turn_run : list Input :=
  OnConnect (Leap.mkController (frame_of 0 []))
  :: feed 1 [turning_hand] (host 0 true 100000)
  ++ feed 2 [turning_hand] (host 0 true 150000)
  ++ feed 3 [turning_hand] (host 0 true 200000).

(** Two polls of the open hand in the gesture mode, after the gesture timer
    has expired. *)
Definition wave_run : list Input :=
  OnConnect (Leap.mkController (frame_of 0 []))
  :: feed 1 [open_hand] (host 2 false 3100000)
  ++ feed 2 [open_hand] (host 2 false 3200000).

(** The hand of the gun: the barrel finger points into the screen, the thumb
    points to its left and moves with the velocity given. *)
Definition gun_hand (thumb_velocity : Leap.Vector) : Leap.Hand :=
  hand_with [still_finger;
             Leap.mkFinger (vec (-1) 0 0) (vec (-30) 150 0) thumb_velocity].

(** The thumb goes in, comes back and goes in again. *)
Definition gun_run : list Input :=
  OnConnect (Leap.mkController (frame_of 0 []))
  :: feed 1 [gun_hand (vec 100 0 (-100))] (host 2 false 300000)
  ++ feed 2 [gun_hand (vec (-100) 0 100)] (host 2 false 400000)
  ++ feed 3 [gun_hand (vec 100 0 (-100))] (host 2 false 600000).

(** Three polls of a fist in the mode that streams data, at 0.3 s, 0.4 s
    and 0.6 s. *)
Definition stream_run : list Input :=
  OnConnect (Leap.mkController (frame_of 0 []))
  :: feed 1 [fist] (host 1 false 300000)
  ++ feed 2 [fist] (host 1 false 400000)
  ++ feed 3 [fist] (host 1 false 600000).

(** Three polls of the open hand in the gesture mode, at 3.1 s, 3.2 s and
    6.3 s. *)
Definition wave_twice_run : list Input :=
  OnConnect (Leap.mkController (frame_of 0 []))
  :: feed 1 [open_hand] (host 2 false 3100000)
  ++ feed 2 [open_hand] (host 2 false 3200000)
  ++ feed 3 [open_hand] (host 2 false 6300000).

(** One finger up and to the right of the middle of the device. *)
Definition pointing_hand : Leap.Hand :=
  hand_with [Leap.mkFinger (vec 0 0 (-1)) (vec 100 100 0) (vec 0 0 0)].

(** A step that stands for "no such step". *)
Definition no_obs : Obs :=
  mkObs (OnInit (Leap.mkController (frame_of 0 []))) world0 (ret tt world0).

(** A listener that is connected and has a frame waiting. *)
Definition ready_world (f : Leap.Frame) : World :=
  mkWorld (mkImpl (Some (Leap.mkController f)) true true (Leap.id f)
             (mkTimer 0) (mkTimer 0) (mkTimer 0)) initial_statics.

(* ================================================================== *)
(** * Further notions *)

(** The world is the same. *)
Definition unchanged (w w' : World) : Prop := w' = w.

(** Any two worlds. *)
Definition any_worlds (w w' : World) : Prop := True.

Definition is_connect (i : Input) : bool :=
  match i with OnConnect _ => true | _ => false end.

Definition is_poll (i : Input) : bool :=
  match i with StepFrame _ => true | _ => false end.



(** The calls of the one-finger branch of [modeMoveAndCamTest1]. *)
Definition is_avatar_move (e : Event) : bool :=
  match e with moveLeftNudge _ | moveYaw _ => true | _ => false end.

Definition is_nudge (e : Event) : bool :=
  match e with moveLeftNudge _ => true | _ => false end.

(** The orbit keys by the axis of the average tip position they follow. *)
Definition is_orbit_x (e : Event) : bool :=
  match e with setOrbitLeftKey _ | setOrbitRightKey _ => true | _ => false end.

Definition is_orbit_z (e : Event) : bool :=
  match e with setOrbitInKey _ | setOrbitOutKey _ => true | _ => false end.

Definition is_orbit_y (e : Event) : bool :=
  match e with setOrbitUpKey _ | setOrbitDownKey _ => true | _ => false end.

Definition is_orbit_key (e : Event) : bool :=
  match e with
  | setOrbitLeftKey _ | setOrbitRightKey _ | setOrbitInKey _
  | setOrbitOutKey _ | setOrbitUpKey _ | setOrbitDownKey _ => true
  | _ => false
  end.

(** The trace is a row of pairs [unlockView], orbit key. *)
Fixpoint unlock_then_key (l : list Event) : bool :=
  match l with
  | [] => true
  | unlockView :: k :: rest => is_orbit_key k && unlock_then_key rest
  | _ => false
  end.

(** The number is zero or finite with a magnitude below 1. *)
Definition magnitude_below_one (a : F32) : bool :=
  match a with
  | S754_zero _ => true
  | S754_finite _ m e => Zpos m <? 2 ^ (- e)
  | _ => false
  end.

Definition nan_vector : Leap.Vector :=
  Leap.mkVector S754_nan S754_nan S754_nan.

Definition is_toggle (e : Event) : bool :=
  match e with setFlying _ => true | _ => false end.

(* ================================================================== *)
(** * Basic facts *)

Lemma count_nonneg {A : Type} (l : list A) : 0 <= Leap.count l.
Proof. unfold Leap.count. lia. Qed.

Lemma count_nil {A : Type} (l : list A) : Leap.count l = 0 -> l = [].
Proof. destruct l; unfold Leap.count; simpl; [reflexivity | lia]. Qed.

Lemma count_one {A : Type} (l : list A) :
  Leap.count l = 1 -> exists a, l = [a].
Proof.
  destruct l as [|a [|b l]]; unfold Leap.count; simpl; try lia.
  intros _. now exists a.
Qed.

Lemma count_cons {A : Type} (a : A) (l : list A) :
  Leap.count (a :: l) = Leap.count l + 1.
Proof. unfold Leap.count. simpl List.length. lia. Qed.

Lemma S32_wrap_small (v : Z) : - 2 ^ 31 <= v < 2 ^ 31 -> S32_wrap v = v.
Proof.
  intros H. unfold S32_wrap. rewrite Z.mod_small; lia.
Qed.

Lemma at_index_in_range {A : Type} (l : list A) (i : Z) (d : A) :
  0 <= i < Leap.count l -> at_index l i d = ret (nth (Z.to_nat i) l d).
Proof.
  intros [H1 H2]. unfold at_index.
  apply Z.leb_le in H1. apply Z.ltb_lt in H2. now rewrite H1, H2.
Qed.

Lemma at_index_single {A : Type} (a d : A) : at_index [a] 0 d = ret a.
Proof. reflexivity. Qed.

(** Projections of the monad operations. *)
Lemma trace_bind {A B : Type} (m : M A) (k : A -> M B) (w : World) :
  trace (bind m k w) = trace (m w) ++ trace (k (value (m w)) (world (m w))).
Proof. reflexivity. Qed.

Lemma faults_bind {A B : Type} (m : M A) (k : A -> M B) (w : World) :
  faults (bind m k w)
  = faults (m w) ++ faults (k (value (m w)) (world (m w))).
Proof. reflexivity. Qed.

Lemma world_bind {A B : Type} (m : M A) (k : A -> M B) (w : World) :
  world (bind m k w) = world (k (value (m w)) (world (m w))).
Proof. reflexivity. Qed.

Lemma value_bind {A B : Type} (m : M A) (k : A -> M B) (w : World) :
  value (bind m k w) = value (k (value (m w)) (world (m w))).
Proof. reflexivity. Qed.

(* ------------------------------------------------------------------ *)
(** ** What a computation may emit *)


Section EmitsOnly.
Variable P : Event -> bool.

Lemma emits_only_ret {A : Type} (a : A) : emits_only P (ret a).
Proof. intro w. reflexivity. Qed.

Lemma emits_only_get {A : Type} (f : World -> A) : emits_only P (get f).
Proof. intro w. reflexivity. Qed.

Lemma emits_only_modify (f : World -> World) : emits_only P (modify f).
Proof. intro w. reflexivity. Qed.

Lemma emits_only_fault (f : Fault) : emits_only P (fault f).
Proof. intro w. reflexivity. Qed.

Lemma emits_only_mark (k : Mark) : emits_only P (mark k).
Proof. intro w. reflexivity. Qed.

Lemma emits_only_emit (e : Event) : P e = true -> emits_only P (emit e).
Proof. intros H w. simpl. now rewrite H. Qed.

Lemma emits_only_bind {A B : Type} (m : M A) (k : A -> M B) :
  emits_only P m -> (forall a, emits_only P (k a)) ->
  emits_only P (bind m k).
Proof.
  intros Hm Hk w. rewrite trace_bind, forallb_app, Hm, Hk. reflexivity.
Qed.

Lemma emits_only_if {A : Type} (b : bool) (m1 m2 : M A) :
  emits_only P m1 -> emits_only P m2 ->
  emits_only P (if b then m1 else m2).
Proof. destruct b; auto. Qed.

Lemma emits_only_at_index {A : Type} (l : list A) (i : Z) (d : A) :
  emits_only P (at_index l i d).
Proof.
  unfold at_index. apply emits_only_if.
  - apply emits_only_ret.
  - apply emits_only_bind; intros; [apply emits_only_fault | apply emits_only_ret].
Qed.

Lemma emits_only_div_count (a : F32) (n : Z) : emits_only P (div_count a n).
Proof. intro w. unfold div_count. destruct (n =? 0); reflexivity. Qed.

Lemma emits_only_vector_div_count (v : Leap.Vector) (n : Z) :
  emits_only P (vector_div_count v n).
Proof.
  unfold vector_div_count.
  repeat (apply emits_only_bind; [apply emits_only_div_count | intro]).
  apply emits_only_ret.
Qed.

Lemma emits_only_yaw_timer env i :
  emits_only P (mYawTimer_checkExpirationAndReset env i).
Proof. intro w. reflexivity. Qed.

Lemma emits_only_chat_timer env i :
  emits_only P (mChatMsgTimer_checkExpirationAndReset env i).
Proof. intro w. reflexivity. Qed.

Lemma emits_only_gesture_timer env i :
  emits_only P (mGestureTimer_checkExpirationAndReset env i).
Proof. intro w. reflexivity. Qed.

Lemma emits_only_sum_tipPosition fl n : forall i pos,
  emits_only P (sum_tipPosition fl n i pos).
Proof.
  induction n as [|n IH]; intros i pos; simpl.
  - apply emits_only_ret.
  - apply emits_only_bind; [apply emits_only_at_index | intro; apply IH].
Qed.

End EmitsOnly.

(** Discharges [emits_only P m] for a computation built from the
    operations above, leaving the events to be checked by computation. *)
Ltac emits_only_step :=
  lazymatch goal with
  | |- emits_only _ (bind _ _) => apply emits_only_bind; [| intro]
  | |- emits_only _ (ret _) => apply emits_only_ret
  | |- emits_only _ (get _) => apply emits_only_get
  | |- emits_only _ (modify _) => apply emits_only_modify
  | |- emits_only _ (fault _) => apply emits_only_fault
  | |- emits_only _ (mark _) => apply emits_only_mark
  | |- emits_only _ (emit _) => apply emits_only_emit; reflexivity
  | |- emits_only _ (at_index _ _ _) => apply emits_only_at_index
  | |- emits_only _ (vector_div_count _ _) => apply emits_only_vector_div_count
  | |- emits_only _ (mYawTimer_checkExpirationAndReset _ _) =>
      apply emits_only_yaw_timer
  | |- emits_only _ (mChatMsgTimer_checkExpirationAndReset _ _) =>
      apply emits_only_chat_timer
  | |- emits_only _ (mGestureTimer_checkExpirationAndReset _ _) =>
      apply emits_only_gesture_timer
  | |- emits_only _ (sum_tipPosition _ _ _ _) => apply emits_only_sum_tipPosition
  | |- emits_only _ (if _ then _ else _) => apply emits_only_if
  | |- emits_only _ (match ?x with _ => _ end) => destruct x
  end.

Ltac emits_only_tac := repeat emits_only_step.


Lemma sum_and_log_fingers_logs fl n : forall i pos dir,
  emits_only is_log (sum_and_log_fingers fl n i pos dir).
Proof.
  induction n as [|n IH]; intros i pos dir; simpl.
  - apply emits_only_ret.
  - emits_only_tac. apply IH.
Qed.

Lemma emits_only_weaken (P Q : Event -> bool) {A : Type} (m : M A) :
  (forall e, P e = true -> Q e = true) -> emits_only P m -> emits_only Q m.
Proof.
  intros HPQ Hm w. specialize (Hm w).
  rewrite forallb_forall in *. auto.
Qed.


Lemma modeFlyingControlTest_quiet env hands :
  emits_only quiet (modeFlyingControlTest env hands).
Proof.
  unfold modeFlyingControlTest, flying_on_off, flying_controls.
  emits_only_tac.
Qed.

Lemma modeStreamDataToSL_silent env hands :
  emits_only (fun _ => false) (modeStreamDataToSL env hands).
Proof. unfold modeStreamDataToSL. emits_only_tac. Qed.

Lemma modeGestureDetection1_emits env hands :
  emits_only (fun e => is_log e || is_gesture e)
    (modeGestureDetection1 env hands).
Proof. unfold modeGestureDetection1. emits_only_tac. Qed.

Lemma orbit_axis_quiet v k1 k2 :
  (forall r, quiet (k1 r) = true) -> (forall r, quiet (k2 r) = true) ->
  emits_only quiet (orbit_axis v k1 k2).
Proof.
  intros H1 H2. unfold orbit_axis. emits_only_tac;
    apply emits_only_emit; auto.
Qed.

Lemma modeMoveAndCamTest1_quiet env hands :
  emits_only quiet (modeMoveAndCamTest1 env hands).
Proof.
  unfold modeMoveAndCamTest1. emits_only_tac;
    apply orbit_axis_quiet; reflexivity.
Qed.

Lemma modeDumpDebugInfo_logs env hands :
  emits_only is_log (modeDumpDebugInfo env hands).
Proof.
  unfold modeDumpDebugInfo. emits_only_tac.
  apply sum_and_log_fingers_logs.
Qed.

Lemma mode_function_quiet m env hands :
  emits_only quiet (mode_function m env hands).
Proof.
  destruct m; simpl.
  - apply modeFlyingControlTest_quiet.
  - eapply emits_only_weaken; [| apply modeStreamDataToSL_silent]. discriminate.
  - eapply emits_only_weaken; [| apply modeGestureDetection1_emits].
    intros [] H; try discriminate H; reflexivity.
  - apply modeMoveAndCamTest1_quiet.
  - eapply emits_only_weaken; [| apply modeDumpDebugInfo_logs].
    intros [] H; try discriminate H; reflexivity.
Qed.

Lemma filter_none {A : Type} (f g : A -> bool) (l : list A) :
  (forall a, g a = true -> f a = false) ->
  forallb g l = true -> filter f l = [].
Proof.
  intros Hfg. induction l as [|a l IH]; simpl; [reflexivity|].
  intros H. apply andb_true_iff in H as [Ha Hl].
  rewrite (Hfg a Ha). auto.
Qed.

Lemma mode_function_no_invoke m env hands w :
  filter is_invoke (trace (mode_function m env hands w)) = [].
Proof.
  apply filter_none with (g := quiet); [| apply mode_function_quiet].
  intros e H. unfold quiet, not_invoke in H.
  apply andb_true_iff in H as [H _]. now apply negb_true_iff in H.
Qed.

(* ------------------------------------------------------------------ *)
(** ** What a computation leaves of the world *)

Section Keeps.
Variable R : World -> World -> Prop.
Hypothesis R_refl : forall w, R w w.
Hypothesis R_trans : forall w1 w2 w3, R w1 w2 -> R w2 w3 -> R w1 w3.

Lemma keeps_ret {A : Type} (a : A) : keeps R (ret a).
Proof. intro w. apply R_refl. Qed.

Lemma keeps_get {A : Type} (f : World -> A) : keeps R (get f).
Proof. intro w. apply R_refl. Qed.

Lemma keeps_emit (e : Event) : keeps R (emit e).
Proof. intro w. apply R_refl. Qed.

Lemma keeps_fault (f : Fault) : keeps R (fault f).
Proof. intro w. apply R_refl. Qed.

Lemma keeps_mark (k : Mark) : keeps R (mark k).
Proof. intro w. apply R_refl. Qed.

Lemma keeps_modify (f : World -> World) :
  (forall w, R w (f w)) -> keeps R (modify f).
Proof. intros H w. apply H. Qed.

Lemma keeps_bind {A B : Type} (m : M A) (k : A -> M B) :
  keeps R m -> (forall a, keeps R (k a)) -> keeps R (bind m k).
Proof.
  intros Hm Hk w. rewrite world_bind. eapply R_trans; [apply Hm | apply Hk].
Qed.

Lemma keeps_if {A : Type} (b : bool) (m1 m2 : M A) :
  keeps R m1 -> keeps R m2 -> keeps R (if b then m1 else m2).
Proof. destruct b; auto. Qed.

Lemma keeps_at_index {A : Type} (l : list A) (i : Z) (d : A) :
  keeps R (at_index l i d).
Proof. intro w. unfold at_index. destruct (_ && _); apply R_refl. Qed.

Lemma keeps_vector_div_count (v : Leap.Vector) (n : Z) :
  keeps R (vector_div_count v n).
Proof.
  intro w. unfold vector_div_count, div_count.
  destruct (n =? 0); apply R_refl.
Qed.

Lemma keeps_sum_tipPosition fl n : forall i pos,
  keeps R (sum_tipPosition fl n i pos).
Proof.
  induction n as [|n IH]; intros i pos; simpl.
  - apply keeps_ret.
  - apply keeps_bind; [apply keeps_at_index | intro; apply IH].
Qed.

Lemma keeps_sum_and_log_fingers fl n : forall i pos dir,
  keeps R (sum_and_log_fingers fl n i pos dir).
Proof.
  induction n as [|n IH]; intros i pos dir; simpl.
  - apply keeps_ret.
  - apply keeps_bind; [apply keeps_at_index | intro].
    apply keeps_bind; [apply keeps_emit | intro; apply IH].
Qed.

Lemma keeps_orbit_axis v k1 k2 : keeps R (orbit_axis v k1 k2).
Proof.
  intro w. unfold orbit_axis.
  destruct (flt _ _); [apply R_refl|]. destruct (fgt _ _); apply R_refl.
Qed.

End Keeps.

Ltac keeps_step rf tr :=
  lazymatch goal with
  | |- keeps _ (bind _ _) => apply (keeps_bind _ tr); [| intro]
  | |- keeps _ (ret _) => apply (keeps_ret _ rf)
  | |- keeps _ (get _) => apply (keeps_get _ rf)
  | |- keeps _ (emit _) => apply (keeps_emit _ rf)
  | |- keeps _ (fault _) => apply (keeps_fault _ rf)
  | |- keeps _ (mark _) => apply (keeps_mark _ rf)
  | |- keeps _ (at_index _ _ _) => apply (keeps_at_index _ rf)
  | |- keeps _ (vector_div_count _ _) => apply (keeps_vector_div_count _ rf)
  | |- keeps _ (sum_tipPosition _ _ _ _) =>
      apply (keeps_sum_tipPosition _ rf tr)
  | |- keeps _ (sum_and_log_fingers _ _ _ _ _) =>
      apply (keeps_sum_and_log_fingers _ rf tr)
  | |- keeps _ (orbit_axis _ _ _) => apply (keeps_orbit_axis _ rf)
  | |- keeps _ (if _ then _ else _) => apply keeps_if
  | |- keeps _ (match ?x with _ => _ end) => destruct x
  end.

(** What is left: the writes, by [modify] and by the timers. *)
Ltac keeps_tac rf tr := repeat keeps_step rf tr.

Lemma same_flags_refl w : same_flags w w.
Proof. unfold same_flags. auto. Qed.

Lemma same_flags_trans w1 w2 w3 :
  same_flags w1 w2 -> same_flags w2 w3 -> same_flags w1 w3.
Proof. unfold same_flags. intuition congruence. Qed.

Lemma timers_later_refl w : timers_later w w.
Proof. unfold timers_later. lia. Qed.

Lemma timers_later_trans w1 w2 w3 :
  timers_later w1 w2 -> timers_later w2 w3 -> timers_later w1 w3.
Proof. unfold timers_later. lia. Qed.

Lemma checkExpirationAndReset_later now interval t :
  0 <= interval ->
  mExpirationTicks t
    <= mExpirationTicks (snd (checkExpirationAndReset now interval t)).
Proof.
  intros H. unfold checkExpirationAndReset.
  destruct (now <? mExpirationTicks t) eqn:E; simpl; [lia|].
  apply Z.ltb_ge in E. lia.
Qed.

Lemma checkExpirationAndReset_true now interval t :
  fst (checkExpirationAndReset now interval t) = true ->
  mExpirationTicks t <= now /\
  snd (checkExpirationAndReset now interval t) = mkTimer (now + interval).
Proof.
  unfold checkExpirationAndReset.
  destruct (now <? mExpirationTicks t) eqn:E; simpl; [discriminate|].
  apply Z.ltb_ge in E. auto.
Qed.

Lemma checkExpirationAndReset_false now interval t :
  fst (checkExpirationAndReset now interval t) = false ->
  now < mExpirationTicks t /\
  snd (checkExpirationAndReset now interval t) = t.
Proof.
  unfold checkExpirationAndReset.
  destruct (now <? mExpirationTicks t) eqn:E; simpl; [|discriminate].
  apply Z.ltb_lt in E. auto.
Qed.

(* ------------------------------------------------------------------ *)
(** ** The dispatch of [stepFrame] *)

Lemma mode_of_setting_cases v :
  (v = 0 /\ mode_of_setting v = Some FlyingControlTest) \/
  (v = 1 /\ mode_of_setting v = Some StreamDataToSL) \/
  (v = 2 /\ mode_of_setting v = Some GestureDetection1) \/
  (v = 3 /\ mode_of_setting v = Some MoveAndCamTest1) \/
  (v = 411 /\ mode_of_setting v = Some DumpDebugInfo) \/
  (v <> 0 /\ v <> 1 /\ v <> 2 /\ v <> 3 /\ v <> 411 /\
   mode_of_setting v = None).
Proof.
  unfold mode_of_setting.
  destruct (Z.eqb_spec v 0); [auto|].
  destruct (Z.eqb_spec v 1); [auto|].
  destruct (Z.eqb_spec v 2); [auto|].
  destruct (Z.eqb_spec v 3); [auto 6|].
  destruct (Z.eqb_spec v 411); [auto 7|].
  do 5 right. auto 10.
Qed.

(** When the guard of [stepFrame] holds, the flag is cleared and then the
    mode that the setting selects runs, if there is one. *)
Lemma stepFrame_dispatch env w c :
  mLMController (impl w) = Some c ->
  mFrameAvailable (impl w) = true ->
  mLMConnected (impl w) = true ->
  stepFrame env w
  = match mode_of_setting (LeapmotionTestMode env) with
    | Some m =>
        (emit (Invoke m) ;;
         mode_function m env (Leap.hands (Leap.frame c)))
          (set_mFrameAvailable false w)
    | None => ret tt (set_mFrameAvailable false w)
    end.
Proof.
  intros Hc Ha Hn.
  unfold stepFrame, mode_of_setting, bind, get.
  cbn [value world trace faults].
  rewrite Hc, Ha, Hn. cbn [andb].
  destruct (LeapmotionTestMode env =? 0); [reflexivity|].
  destruct (LeapmotionTestMode env =? 1); [reflexivity|].
  destruct (LeapmotionTestMode env =? 2); [reflexivity|].
  destruct (LeapmotionTestMode env =? 3); [reflexivity|].
  destruct (LeapmotionTestMode env =? 411); reflexivity.
Qed.

(** When the guard fails, [stepFrame] does nothing. *)
Lemma stepFrame_idle env w :
  match mLMController (impl w) with
  | Some _ => mFrameAvailable (impl w) && mLMConnected (impl w)
  | None => false
  end = false ->
  stepFrame env w = ret tt w.
Proof.
  intros H. unfold stepFrame, bind, get. cbn [value world trace faults].
  destruct (mLMController (impl w)); [|reflexivity].
  rewrite H. reflexivity.
Qed.

(* ================================================================== *)
(** * The dispatch, the flag and the callbacks *)

(** C1. When [stepFrame] processes a frame (the controller is there, a frame
    is available and the device is connected) it invokes exactly one mode
    function, the one that the setting LeapmotionTestMode selects (0, 1, 2,
    3, 411), on the hands of the latest frame, and none for any other value
    of the setting. *)
Theorem C1_stepFrame_invokes_one_mode env w c :
  mLMController (impl w) = Some c ->
  mFrameAvailable (impl w) = true ->
  mLMConnected (impl w) = true ->
  let hands := Leap.hands (Leap.frame c) in
  let w' := set_mFrameAvailable false w in
  let v := LeapmotionTestMode env in
  (v = 0 -> stepFrame env w
            = (emit (Invoke FlyingControlTest) ;;
               modeFlyingControlTest env hands) w') /\
  (v = 1 -> stepFrame env w
            = (emit (Invoke StreamDataToSL) ;;
               modeStreamDataToSL env hands) w') /\
  (v = 2 -> stepFrame env w
            = (emit (Invoke GestureDetection1) ;;
               modeGestureDetection1 env hands) w') /\
  (v = 3 -> stepFrame env w
            = (emit (Invoke MoveAndCamTest1) ;;
               modeMoveAndCamTest1 env hands) w') /\
  (v = 411 -> stepFrame env w
              = (emit (Invoke DumpDebugInfo) ;;
                 modeDumpDebugInfo env hands) w') /\
  (v <> 0 -> v <> 1 -> v <> 2 -> v <> 3 -> v <> 411 ->
   stepFrame env w = ret tt w') /\
  filter is_invoke (trace (stepFrame env w))
  = match mode_of_setting v with
    | Some m => [Invoke m]
    | None => []
    end.
Proof.
  intros Hc Ha Hn hands w' v.
  pose proof (stepFrame_dispatch env w c Hc Ha Hn) as D.
  fold hands w' v in D.
  assert (T : filter is_invoke (trace (stepFrame env w))
              = match mode_of_setting v with
                | Some m => [Invoke m]
                | None => []
                end).
  { rewrite D. destruct (mode_of_setting v) as [m|]; [|reflexivity].
    rewrite trace_bind. cbn [emit trace app filter is_invoke].
    now rewrite mode_function_no_invoke. }
  destruct (mode_of_setting_cases v)
    as [[E Hm]|[[E Hm]|[[E Hm]|[[E Hm]|[[E Hm]|(N0&N1&N2&N3&N4&Hm)]]]]];
    rewrite Hm in D; cbn [mode_function] in D;
    repeat split; try assumption; intros; try lia; try exact D.
Qed.

Lemma C1_stepFrame_invokes_one_mode_witness :
  filter is_invoke
    (trace (stepFrame (host 2 false 0) (ready_world (frame_of 7 [fist]))))
  = [Invoke GestureDetection1].
Proof.
  exact (proj2 (proj2 (proj2 (proj2 (proj2 (proj2
    (C1_stepFrame_invokes_one_mode (host 2 false 0)
       (ready_world (frame_of 7 [fist]))
       (Leap.mkController (frame_of 7 [fist]))
       eq_refl eq_refl eq_refl))))))).
Defined.

(** C4. A disconnect only flips a boolean: [onDisconnect] sets
    [mLMConnected] to false, leaves every other field of the listener and
    the statics as they are, and calls nothing but the log. *)
Theorem C4_onDisconnect_only_clears_connected c w :
  let o := onDisconnect c w in
  mLMConnected (impl (world o)) = false /\
  mFrameAvailable (impl (world o)) = mFrameAvailable (impl w) /\
  mCurrentFrameID (impl (world o)) = mCurrentFrameID (impl w) /\
  mYawTimer (impl (world o)) = mYawTimer (impl w) /\
  mChatMsgTimer (impl (world o)) = mChatMsgTimer (impl w) /\
  mGestureTimer (impl (world o)) = mGestureTimer (impl w) /\
  mLMController (impl (world o)) = mLMController (impl w) /\
  statics (world o) = statics w /\
  trace o = [llinfos [Text "Disconnected"]] /\
  filter is_action (trace o) = [] /\
  faults o = [].
Proof. cbv zeta. repeat split. Qed.

(** C10. The public [stepFrame] forwards to the listener only when
    [mController] is there and the startup state is STATE_STARTED; in every
    other startup state, and without a listener, it changes nothing and
    calls nothing. *)
Theorem C10_wrapper_forwards_only_when_started
  (STATE_STARTED : EStartupState) env (c : LLLeapMotionController.t) :
  (getStartupState env <> STATE_STARTED ->
   LLLeapMotionController.stepFrame STATE_STARTED env c = (c, [], [])) /\
  (LLLeapMotionController.mController c = None ->
   LLLeapMotionController.stepFrame STATE_STARTED env c = (c, [], [])) /\
  (forall i,
     LLLeapMotionController.mController c = Some i ->
     getStartupState env = STATE_STARTED ->
     let o := stepFrame env (mkWorld i (LLLeapMotionController.globals c)) in
     LLLeapMotionController.stepFrame STATE_STARTED env c
     = (LLLeapMotionController.mk (Some (impl (world o))) (statics (world o)),
        trace o, faults o)).
Proof.
  unfold LLLeapMotionController.stepFrame. repeat split.
  - intros H. destruct (LLLeapMotionController.mController c); [|reflexivity].
    destruct (Z.eqb_spec STATE_STARTED (getStartupState env)); [|reflexivity].
    congruence.
  - intros ->. reflexivity.
  - intros i -> <-. now rewrite Z.eqb_refl.
Qed.

(* ------------------------------------------------------------------ *)
(** ** What a computation depends on *)

Section Respects.
Variable R : World -> World -> Prop.

Lemma respects_ret {A : Type} (a : A) : respects R (ret a).
Proof. intros w1 w2 H. simpl. auto. Qed.

Lemma respects_emit (e : Event) : respects R (emit e).
Proof. intros w1 w2 H. simpl. auto. Qed.

Lemma respects_fault (f : Fault) : respects R (fault f).
Proof. intros w1 w2 H. simpl. auto. Qed.

Lemma respects_mark (k : Mark) : respects R (mark k).
Proof. intros w1 w2 H. simpl. auto. Qed.

Lemma respects_get {A : Type} (f : World -> A) :
  (forall w1 w2, R w1 w2 -> f w1 = f w2) -> respects R (get f).
Proof. intros Hf w1 w2 H. simpl. auto. Qed.

Lemma respects_modify (f : World -> World) :
  (forall w1 w2, R w1 w2 -> R (f w1) (f w2)) -> respects R (modify f).
Proof. intros Hf w1 w2 H. simpl. auto. Qed.

Lemma respects_bind {A B : Type} (m : M A) (k : A -> M B) :
  respects R m -> (forall a, respects R (k a)) -> respects R (bind m k).
Proof.
  intros Hm Hk w1 w2 H.
  destruct (Hm w1 w2 H) as (Hv & Ht & Hf & Hw).
  rewrite !value_bind, !trace_bind, !faults_bind, !world_bind.
  rewrite Hv, Ht, Hf.
  destruct (Hk (value (m w2)) _ _ Hw) as (Hv' & Ht' & Hf' & Hw').
  rewrite <- Hv. rewrite Hv in *. rewrite Hv', Ht', Hf'. auto.
Qed.

Lemma respects_if {A : Type} (b : bool) (m1 m2 : M A) :
  respects R m1 -> respects R m2 -> respects R (if b then m1 else m2).
Proof. destruct b; auto. Qed.

Lemma respects_at_index {A : Type} (l : list A) (i : Z) (d : A) :
  respects R (at_index l i d).
Proof.
  unfold at_index. apply respects_if; [apply respects_ret|].
  apply respects_bind; intros; [apply respects_fault | apply respects_ret].
Qed.

Lemma respects_vector_div_count (v : Leap.Vector) (n : Z) :
  respects R (vector_div_count v n).
Proof.
  unfold vector_div_count, div_count.
  repeat (apply respects_bind; [|intro]);
    try apply respects_ret;
    (apply respects_if; [apply respects_fault | apply respects_ret]).
Qed.

Lemma respects_sum_tipPosition fl n : forall i pos,
  respects R (sum_tipPosition fl n i pos).
Proof.
  induction n as [|n IH]; intros i pos; simpl.
  - apply respects_ret.
  - apply respects_bind; [apply respects_at_index | intro; apply IH].
Qed.

Lemma respects_sum_and_log_fingers fl n : forall i pos dir,
  respects R (sum_and_log_fingers fl n i pos dir).
Proof.
  induction n as [|n IH]; intros i pos dir; simpl.
  - apply respects_ret.
  - apply respects_bind; [apply respects_at_index | intro].
    apply respects_bind; [apply respects_emit | intro; apply IH].
Qed.

Lemma respects_orbit_axis v k1 k2 : respects R (orbit_axis v k1 k2).
Proof.
  unfold orbit_axis.
  repeat first [ apply respects_if | apply respects_bind; [|intro]
               | apply respects_emit | apply respects_ret ].
Qed.

End Respects.

Ltac respects_step :=
  lazymatch goal with
  | |- respects _ (bind _ _) => apply respects_bind; [| intro]
  | |- respects _ (ret _) => apply respects_ret
  | |- respects _ (emit _) => apply respects_emit
  | |- respects _ (fault _) => apply respects_fault
  | |- respects _ (mark _) => apply respects_mark
  | |- respects _ (at_index _ _ _) => apply respects_at_index
  | |- respects _ (vector_div_count _ _) => apply respects_vector_div_count
  | |- respects _ (sum_tipPosition _ _ _ _) => apply respects_sum_tipPosition
  | |- respects _ (sum_and_log_fingers _ _ _ _ _) =>
      apply respects_sum_and_log_fingers
  | |- respects _ (orbit_axis _ _ _) => apply respects_orbit_axis
  | |- respects _ (if _ then _ else _) => apply respects_if
  | |- respects _ (match ?x with _ => _ end) => destruct x
  end.

(** What is left: the reads and the writes. *)
Ltac respects_tac := repeat respects_step.

(** Reads and writes of the modes do not touch the stored frame id. *)
Ltac frame_id_free :=
  lazymatch goal with
  | |- respects _ (get _) =>
      apply respects_get;
      intros ? ? (?&?&?&?&?&?&?); cbn beta; congruence
  | |- respects _ (modify _) =>
      apply respects_modify;
      intros ? ? (?&?&?&?&?&?&?); unfold same_but_frame_id;
      cbn; repeat split; congruence
  | |- respects _ (_ _ _) =>
      intros ? ? (?&?&?&?&?&?&?); unfold same_but_frame_id;
      cbn; repeat split; congruence
  end.

Lemma mode_function_ignores_frame_id m env hands :
  respects same_but_frame_id (mode_function m env hands).
Proof.
  destruct m; cbn [mode_function];
    [ unfold modeFlyingControlTest, flying_on_off, flying_controls
    | unfold modeStreamDataToSL
    | unfold modeGestureDetection1 | unfold modeMoveAndCamTest1
    | unfold modeDumpDebugInfo ];
    respects_tac; frame_id_free.
Qed.

Lemma stepFrame_ignores_frame_id env :
  respects same_but_frame_id (stepFrame env).
Proof.
  unfold stepFrame. respects_tac;
    first [ apply (mode_function_ignores_frame_id FlyingControlTest)
          | apply (mode_function_ignores_frame_id StreamDataToSL)
          | apply (mode_function_ignores_frame_id GestureDetection1)
          | apply (mode_function_ignores_frame_id MoveAndCamTest1)
          | apply (mode_function_ignores_frame_id DumpDebugInfo)
          | frame_id_free ].
Qed.

(** The modes write the timers and the statics only. *)
Lemma mode_function_same_flags m env hands :
  keeps same_flags (mode_function m env hands).
Proof.
  destruct m; cbn [mode_function];
    [ unfold modeFlyingControlTest, flying_on_off, flying_controls
    | unfold modeStreamDataToSL
    | unfold modeGestureDetection1 | unfold modeMoveAndCamTest1
    | unfold modeDumpDebugInfo ];
    keeps_tac same_flags_refl same_flags_trans;
    intro w; unfold same_flags; cbn; auto.
Qed.

(** After [stepFrame] the flag is down or the guard did not hold. *)
Lemma stepFrame_leaves_no_frame env w :
  match mLMController (impl (world (stepFrame env w))) with
  | Some _ => mFrameAvailable (impl (world (stepFrame env w)))
              && mLMConnected (impl (world (stepFrame env w)))
  | None => false
  end = false.
Proof.
  destruct (mLMController (impl w)) as [c|] eqn:Hc.
  - destruct (mFrameAvailable (impl w)) eqn:Ha.
    + destruct (mLMConnected (impl w)) eqn:Hn.
      * rewrite (stepFrame_dispatch env w c Hc Ha Hn).
        destruct (mode_of_setting _) as [m|].
        -- rewrite world_bind. cbn [emit value world].
           destruct (mode_function_same_flags m env
                       (Leap.hands (Leap.frame c))
                       (set_mFrameAvailable false w)) as (E1 & E2 & E3 & E4).
           rewrite E1, E2, E3. cbn. now rewrite Hc.
        -- cbn. now rewrite Hc.
      * rewrite stepFrame_idle; cbn; rewrite Hc, ?Ha, ?Hn; reflexivity.
    + rewrite stepFrame_idle; cbn; rewrite Hc, ?Ha; reflexivity.
  - rewrite stepFrame_idle; cbn; rewrite Hc; reflexivity.
Qed.

(** C2. The frame-available flag is a one-place buffer. [onFrame] raises it
    and records the frame id exactly when the device is connected and the id
    is new, and changes nothing otherwise. [stepFrame] does nothing while the
    flag is down, and lowers it when it processes a frame, so that a second
    poll finds nothing to do. While the flag is up a further notification
    changes at most the stored frame id, which the poll does not read. *)
Theorem C2_frame_flag_is_consumed_once :
  (forall c w,
     world (onFrame c w)
     = if mLMConnected (impl w)
          && negb (Leap.id (Leap.frame c) =? mCurrentFrameID (impl w))
       then set_mFrameAvailable true
              (set_mCurrentFrameID (Leap.id (Leap.frame c)) w)
       else w) /\
  (forall c w, trace (onFrame c w) = [] /\ faults (onFrame c w) = []) /\
  (forall env w,
     mFrameAvailable (impl w) = false -> stepFrame env w = ret tt w) /\
  (forall env w c,
     mLMController (impl w) = Some c ->
     mFrameAvailable (impl w) = true ->
     mLMConnected (impl w) = true ->
     mFrameAvailable (impl (world (stepFrame env w))) = false) /\
  (forall env1 env2 w,
     stepFrame env2 (world (stepFrame env1 w))
     = ret tt (world (stepFrame env1 w))) /\
  (forall c w,
     mFrameAvailable (impl w) = true ->
     same_but_frame_id w (world (onFrame c w))) /\
  (forall env w1 w2,
     same_but_frame_id w1 w2 ->
     trace (stepFrame env w1) = trace (stepFrame env w2) /\
     faults (stepFrame env w1) = faults (stepFrame env w2) /\
     same_but_frame_id (world (stepFrame env w1)) (world (stepFrame env w2))).
Proof.
  repeat apply conj.
  - intros c w. unfold onFrame, bind, get. cbn [value world trace faults].
    destruct (mLMConnected (impl w)); [|reflexivity].
    destruct (negb _); reflexivity.
  - intros c w. unfold onFrame, bind, get. cbn [value world trace faults].
    destruct (mLMConnected (impl w)); [|auto].
    destruct (negb _); auto.
  - intros env w H. apply stepFrame_idle. rewrite H.
    destruct (mLMController (impl w)); reflexivity.
  - intros env w c Hc Ha Hn.
    pose proof (stepFrame_leaves_no_frame env w) as L.
    rewrite (stepFrame_dispatch env w c Hc Ha Hn) in *.
    destruct (mode_of_setting _) as [m|]; [|reflexivity].
    rewrite world_bind in *. cbn [emit value world] in *.
    destruct (mode_function_same_flags m env (Leap.hands (Leap.frame c))
                (set_mFrameAvailable false w)) as (E1 & E2 & E3 & E4).
    now rewrite E3.
  - intros env1 env2 w. apply stepFrame_idle, stepFrame_leaves_no_frame.
  - intros c w Ha. unfold onFrame, bind, get, same_but_frame_id.
    cbn [value world trace faults].
    destruct (mLMConnected (impl w)) eqn:Hn; [|cbn; rewrite Hn; auto 10].
    destruct (negb _); cbn; rewrite ?Hn, ?Ha; auto 10.
  - intros env w1 w2 H.
    destruct (stepFrame_ignores_frame_id env w1 w2 H) as (_ & ? & ? & ?).
    auto.
Qed.

(* ================================================================== *)
(** * Count checks and faults *)

Lemma safe_ret {A : Type} (a : A) : safe (ret a).
Proof. intro w. reflexivity. Qed.

Lemma safe_get {A : Type} (f : World -> A) : safe (get f).
Proof. intro w. reflexivity. Qed.

Lemma safe_modify (f : World -> World) : safe (modify f).
Proof. intro w. reflexivity. Qed.

Lemma safe_emit (e : Event) : safe (emit e).
Proof. intro w. reflexivity. Qed.

Lemma safe_mark (k : Mark) : safe (mark k).
Proof. intro w. reflexivity. Qed.

Lemma safe_bind {A B : Type} (m : M A) (k : A -> M B) :
  safe m -> (forall a, safe (k a)) -> safe (bind m k).
Proof. intros Hm Hk w. now rewrite faults_bind, Hm, Hk. Qed.

Lemma safe_bind_ret {A B : Type} (a : A) (k : A -> M B) :
  safe (k a) -> safe (bind (ret a) k).
Proof. intros Hk w. rewrite faults_bind. apply Hk. Qed.

Lemma safe_if {A : Type} (b : bool) (m1 m2 : M A) :
  (b = true -> safe m1) -> (b = false -> safe m2) ->
  safe (if b then m1 else m2).
Proof. destruct b; auto. Qed.

Lemma safe_at_index {A : Type} (l : list A) (i : Z) (d : A) :
  0 <= i < Leap.count l -> safe (at_index l i d).
Proof. intros H w. now rewrite at_index_in_range. Qed.

Lemma safe_vector_div_count (v : Leap.Vector) (n : Z) :
  n <> 0 -> safe (vector_div_count v n).
Proof.
  intros H w. unfold vector_div_count, div_count.
  destruct (Z.eqb_spec n 0); [contradiction | reflexivity].
Qed.

Lemma safe_yaw_timer env i : safe (mYawTimer_checkExpirationAndReset env i).
Proof. intro w. reflexivity. Qed.

Lemma safe_chat_timer env i :
  safe (mChatMsgTimer_checkExpirationAndReset env i).
Proof. intro w. reflexivity. Qed.

Lemma safe_gesture_timer env i :
  safe (mGestureTimer_checkExpirationAndReset env i).
Proof. intro w. reflexivity. Qed.

(** The loops stay inside the list when they start with enough of it left. *)
Lemma safe_sum_tipPosition fl n : forall i pos,
  0 <= i -> i + Z.of_nat n <= Leap.count fl ->
  safe (sum_tipPosition fl n i pos).
Proof.
  induction n as [|n IH]; intros i pos H0 H1; simpl.
  - apply safe_ret.
  - apply safe_bind; [apply safe_at_index; lia | intro; apply IH; lia].
Qed.

Lemma safe_sum_and_log_fingers fl n : forall i pos dir,
  0 <= i -> i + Z.of_nat n <= Leap.count fl ->
  safe (sum_and_log_fingers fl n i pos dir).
Proof.
  induction n as [|n IH]; intros i pos dir H0 H1; simpl.
  - apply safe_ret.
  - apply safe_bind; [apply safe_at_index; lia | intro].
    apply safe_bind; [apply safe_emit | intro; apply IH; lia].
Qed.

Lemma safe_orbit_axis v k1 k2 : safe (orbit_axis v k1 k2).
Proof.
  intro w. unfold orbit_axis.
  destruct (flt _ _); [reflexivity|]. destruct (fgt _ _); reflexivity.
Qed.

Ltac count_facts :=
  repeat match goal with
    | H : (_ =? _) = true |- _ => apply Z.eqb_eq in H
    | H : (_ >=? _) = true |- _ => apply Z.geb_le in H
    | H : (_ =? _) = false |- _ => apply Z.eqb_neq in H
    end;
  unfold Leap.count in *.

Ltac safe_step :=
  lazymatch goal with
  | |- safe (bind _ _) => apply safe_bind; [| intro]
  | |- safe (ret _) => apply safe_ret
  | |- safe (get _) => apply safe_get
  | |- safe (modify _) => apply safe_modify
  | |- safe (emit _) => apply safe_emit
  | |- safe (mark _) => apply safe_mark
  | |- safe (at_index _ _ _) => apply safe_at_index; count_facts; lia
  | |- safe (vector_div_count _ _) =>
      apply safe_vector_div_count; count_facts; lia
  | |- safe (mYawTimer_checkExpirationAndReset _ _) => apply safe_yaw_timer
  | |- safe (mChatMsgTimer_checkExpirationAndReset _ _) =>
      apply safe_chat_timer
  | |- safe (mGestureTimer_checkExpirationAndReset _ _) =>
      apply safe_gesture_timer
  | |- safe (sum_tipPosition _ _ _ _) =>
      apply safe_sum_tipPosition; count_facts; lia
  | |- safe (sum_and_log_fingers _ _ _ _ _) =>
      apply safe_sum_and_log_fingers; count_facts; lia
  | |- safe (orbit_axis _ _ _) => apply safe_orbit_axis
  | |- safe (if _ then _ else _) => apply safe_if; intro
  end.

Ltac safe_tac := repeat safe_step.

(** In four of the modes every index and every division by a count sits
    under a count check that makes it well-defined. *)
Lemma modeFlyingControlTest_safe env hands :
  safe (modeFlyingControlTest env hands).
Proof.
  unfold modeFlyingControlTest, flying_on_off, flying_controls. safe_tac.
Qed.

Lemma modeStreamDataToSL_safe env hands :
  safe (modeStreamDataToSL env hands).
Proof.
  intro w. unfold modeStreamDataToSL.
  destruct (Z.eqb_spec (Leap.count hands) 1) as [E|E].
  - apply count_one in E as [hand ->].
    rewrite faults_bind.
    destruct (value (mChatMsgTimer_checkExpirationAndReset _ _ _));
      reflexivity.
  - reflexivity.
Qed.

Lemma modeGestureDetection1_safe env hands :
  safe (modeGestureDetection1 env hands).
Proof. unfold modeGestureDetection1. safe_tac. Qed.

Lemma modeDumpDebugInfo_safe env hands :
  safe (modeDumpDebugInfo env hands).
Proof. unfold modeDumpDebugInfo. safe_tac. Qed.

(** In [modeMoveAndCamTest1] the indices are safe too, and the divisions are
    when the hand shows a finger. *)
Lemma modeMoveAndCamTest1_safe env hands :
  match hands with
  | [hand] => Leap.fingers hand <> []
  | _ => True
  end ->
  safe (modeMoveAndCamTest1 env hands).
Proof.
  intros H. unfold modeMoveAndCamTest1.
  apply safe_if; intro E; [|apply safe_ret].
  apply Z.eqb_eq, count_one in E as [hand ->].
  rewrite at_index_single. apply safe_bind_ret. safe_tac.
  apply safe_vector_div_count. intro E. apply count_nil in E. contradiction.
Qed.

(** C3. The count check is missing in [modeMoveAndCamTest1]: for one hand
    that shows no finger the three components of the sum of the tip positions
    are divided by the finger count 0. *)
Theorem C3_modeMoveAndCamTest1_divides_by_zero env w p n r c :
  Leap.count (Leap.fingers (Leap.mkHand [] p n r c)) = 0 /\
  faults (modeMoveAndCamTest1 env [Leap.mkHand [] p n r c] w)
  = [DivisionByZero; DivisionByZero; DivisionByZero] /\
  faults (modeDumpDebugInfo env [Leap.mkHand [] p n r c] w) = [].
Proof. repeat split. Qed.

(* ------------------------------------------------------------------ *)
(** ** Symbolic evaluation of a mode *)

Ltac mstep :=
  cbn [bind ret get modify emit fault mark value world trace faults marks
       fst snd app
       mYawTimer_checkExpirationAndReset mChatMsgTimer_checkExpirationAndReset
       mGestureTimer_checkExpirationAndReset] in *.

(** Splits on the first test that stands in the way. *)
Ltac case_if :=
  match goal with
  | |- context [if ?b then _ else _] =>
      lazymatch b with
      | context [if _ then _ else _] => fail
      | existsb _ _ => fail
      | _ => destruct b eqn:?
      end
  end.

Ltac bool_facts :=
  repeat match goal with
    | H : (_ && _) = true |- _ => apply andb_true_iff in H; destruct H
    | H : negb _ = true |- _ => apply negb_true_iff in H
    | H : negb _ = false |- _ => apply negb_false_iff in H
    | H : (_ <? _) = true |- _ => apply Z.ltb_lt in H
    | H : (_ <? _) = false |- _ => apply Z.ltb_ge in H
    | H : (_ >? _) = true |- _ => apply Z.gtb_lt in H
    | H : (_ >? _) = false |- _ => rewrite Z.gtb_ltb in H
    | H : (_ =? _) = true |- _ => apply Z.eqb_eq in H
    | H : (_ =? _) = false |- _ => apply Z.eqb_neq in H
    | H : fst (checkExpirationAndReset _ _ _) = true |- _ =>
        apply checkExpirationAndReset_true in H;
        let E := fresh "E" in destruct H as [H E]; rewrite ?E in *
    | H : fst (checkExpirationAndReset _ _ _) = false |- _ =>
        apply checkExpirationAndReset_false in H;
        let E := fresh "E" in destruct H as [H E]; rewrite ?E in *
    end.

Ltac symex :=
  repeat (mstep;
          try rewrite at_index_in_range by (count_facts; lia);
          case_if);
  mstep;
  change (Z.to_nat 0) with 0%nat in *;
  change (Z.to_nat 1) with 1%nat in *.

Ltac use_tests :=
  repeat match goal with
    | H : ?b = true |- context [?b] => rewrite H
    | H : ?b = false |- context [?b] => rewrite H
    end.

Ltac events :=
  cbn [existsb is_gunfire is_gesture is_yaw is_stop_flying is_start_flying
       orb andb String.eqb Ascii.eqb Bool.eqb vector_pieces app
       set_last_num_fingers set_trigger_direction set_sLMFlyingHysteresis
       set_mChatMsgTimer set_mGestureTimer set_mYawTimer
       impl statics trigger_direction last_num_fingers sLMFlyingHysteresis
       mYawTimer mChatMsgTimer mGestureTimer mExpirationTicks].

(** What one evaluation of [modeGestureDetection1] on one hand does to the
    statics and the timers, by what it emits. *)
Lemma modeGestureDetection1_one_hand env hand w :
  let o := modeGestureDetection1 env [hand] w in
  let n := Leap.count (Leap.fingers hand) in
  let td := trigger_direction (statics w) in
  let td' := trigger_direction (statics (world o)) in
  last_num_fingers (statics (world o)) = n /\
  (if existsb is_gunfire (trace o)
   then td < 0 /\ td' = 1 /\
        mExpirationTicks (mChatMsgTimer (impl w)) <= clock env /\
        mChatMsgTimer (impl (world o))
        = mkTimer (clock env + LLLEAP_CHAT_MSG_INTERVAL) /\
        trace o = [llinfos [Text "Sent gunfire chat"]]
   else mChatMsgTimer (impl (world o)) = mChatMsgTimer (impl w) /\
        (td' = td \/ (td' = -1 /\ resets_trigger hand = true))) /\
  (if existsb is_gesture (trace o)
   then n = 5 /\ last_num_fingers (statics w) = 5 /\
        mExpirationTicks (mGestureTimer (impl w)) <= clock env /\
        mGestureTimer (impl (world o))
        = mkTimer (clock env + LLLEAP_GESTURE_INTERVAL) /\
        trace o = [triggerAndReviseString "/overhere"]
   else mGestureTimer (impl (world o)) = mGestureTimer (impl w)).
Proof.
  cbv zeta. unfold modeGestureDetection1.
  change (Leap.count [hand] =? 1) with true. cbv iota.
  rewrite at_index_single.
  symex; unfold resets_trigger; use_tests; events; bool_facts;
    use_tests; events; intuition (auto; try lia; try congruence).
Qed.

Lemma count_many {A : Type} (a b : A) (l : list A) :
  (Leap.count (a :: b :: l) =? 0) = false /\
  (Leap.count (a :: b :: l) =? 1) = false.
Proof.
  rewrite !count_cons. pose proof (count_nonneg l).
  split; apply Z.eqb_neq; lia.
Qed.

Ltac split_tests :=
  repeat match goal with
    | H : (_ && _) = false |- _ => apply andb_false_iff in H; destruct H
    end.

Lemma existsb_none {A : Type} (f g : A -> bool) (l : list A) :
  (forall a, g a = true -> f a = false) ->
  forallb g l = true -> existsb f l = false.
Proof.
  intros Hfg. induction l as [|a l IH]; simpl; [reflexivity|].
  intros H. apply andb_true_iff in H as [Ha Hl].
  rewrite (Hfg a Ha). auto.
Qed.

(** The flying controls write the yaw timer only. *)
Lemma flying_controls_world env hand w :
  world (flying_controls env hand w)
  = set_mYawTimer
      (snd (checkExpirationAndReset (clock env) LLLEAP_YAW_INTERVAL
              (mYawTimer (impl w)))) w.
Proof.
  unfold flying_controls.
  symex; reflexivity.
Qed.

Lemma flying_controls_yaw env hand w :
  existsb is_yaw (trace (flying_controls env hand w)) = true ->
  fst (checkExpirationAndReset (clock env) LLLEAP_YAW_INTERVAL
         (mYawTimer (impl w))) = true.
Proof.
  unfold flying_controls.
  symex; events; auto.
Qed.

Lemma flying_controls_no_toggle env hand w :
  existsb is_stop_flying (trace (flying_controls env hand w)) = false /\
  existsb is_start_flying (trace (flying_controls env hand w)) = false.
Proof.
  assert (H : emits_only
                (fun e => negb (is_stop_flying e) && negb (is_start_flying e))
                (flying_controls env hand)).
  { unfold flying_controls. emits_only_tac. }
  split; apply existsb_none with (2 := H w); intros e He;
    apply andb_true_iff in He as [H1 H2];
    now apply negb_true_iff in H1, H2.
Qed.

(** The on / off block writes the counter only and does not turn. *)
Lemma flying_on_off_frame flying n w :
  impl (world (flying_on_off flying n w)) = impl w /\
  existsb is_yaw (trace (flying_on_off flying n w)) = false.
Proof. unfold flying_on_off. symex; events; auto. Qed.

(** The on / off block, by what it emits. *)
Lemma flying_on_off_cases flying n w :
  let o := flying_on_off flying n w in
  let h := sLMFlyingHysteresis (statics w) in
  let h' := sLMFlyingHysteresis (statics (world o)) in
  h < 2 ^ 31 ->
  (if existsb is_stop_flying (trace o)
   then flying = true /\ n = 0 /\ h' <= 0
   else True) /\
  (if existsb is_start_flying (trace o)
   then flying = false /\ 2 < n /\ h' = 5
   else (n >? 2) && negb flying = false /\
        (h' = h \/ (h' = h - 1 /\ 0 < h /\ flying = true /\ n = 0))).
Proof.
  cbv zeta. intros Hh. unfold flying_on_off.
  symex; events; bool_facts; rewrite ?S32_wrap_small by lia;
    repeat split; auto; try lia.
Qed.

(** A yaw turn of [modeFlyingControlTest] finds the yaw timer expired and
    arms it again. *)
Lemma modeFlyingControlTest_yaw env hands w :
  existsb is_yaw (trace (modeFlyingControlTest env hands w)) = true ->
  mExpirationTicks (mYawTimer (impl w)) <= clock env /\
  mYawTimer (impl (world (modeFlyingControlTest env hands w)))
  = mkTimer (clock env + LLLEAP_YAW_INTERVAL).
Proof.
  unfold modeFlyingControlTest.
  destruct hands as [|hand [|hand2 rest]].
  - change (Leap.count (@nil Leap.Hand) =? 0) with true.
    change (Leap.count (@nil Leap.Hand) =? 1) with false.
    symex; events; discriminate.
  - change (Leap.count [hand] =? 0) with false.
    change (Leap.count [hand] =? 1) with true.
    rewrite at_index_single. mstep. cbn [andb]. mstep.
    destruct (flying_on_off_frame (getFlying env)
                (Leap.count (Leap.fingers hand)) w) as [Fi Fy].
    set (o1 := flying_on_off (getFlying env)
                 (Leap.count (Leap.fingers hand)) w) in *.
    rewrite existsb_app, Fy. cbn [orb].
    destruct (getFlying env); mstep; [|discriminate].
    intros Y. apply flying_controls_yaw, checkExpirationAndReset_true in Y.
    rewrite flying_controls_world. rewrite Fi in Y. destruct Y as [Y1 Y2].
    cbn [set_mYawTimer impl mYawTimer]. rewrite Fi, Y2. auto.
  - destruct (count_many hand hand2 rest) as [-> ->].
    rewrite !andb_false_l. mstep. discriminate.
Qed.

(** What one evaluation of [modeFlyingControlTest] does to the hysteresis
    counter, by what it emits. *)
Lemma modeFlyingControlTest_cases env hands w :
  let o := modeFlyingControlTest env hands w in
  let h := sLMFlyingHysteresis (statics w) in
  let h' := sLMFlyingHysteresis (statics (world o)) in
  h < 2 ^ 31 ->
  (if existsb is_stop_flying (trace o)
   then stop_condition env hands = true /\ h' <= 0
   else True) /\
  (if existsb is_start_flying (trace o)
   then start_condition env hands = true /\ h' = 5
   else start_condition env hands = false /\
        (h' = h \/
         (h' = h - 1 /\ 0 < h /\ stop_condition env hands = true))).
Proof.
  cbv zeta. intros Hh. unfold modeFlyingControlTest.
  destruct hands as [|hand [|hand2 rest]].
  - change (Leap.count (@nil Leap.Hand) =? 0) with true.
    change (Leap.count (@nil Leap.Hand) =? 1) with false.
    unfold stop_condition, start_condition.
    symex; events; bool_facts; rewrite ?S32_wrap_small in * by lia;
      use_tests; rewrite ?andb_false_r;
      cbn [andb negb set_sLMFlyingHysteresis statics sLMFlyingHysteresis]
        in *;
      intuition (auto; try lia; try discriminate).
  - change (Leap.count [hand] =? 0) with false.
    change (Leap.count [hand] =? 1) with true.
    rewrite at_index_single. mstep. cbn [andb]. mstep.
    pose proof (flying_on_off_cases (getFlying env)
                  (Leap.count (Leap.fingers hand)) w Hh) as F.
    cbv zeta in F. destruct F as (Fstop & Fstart).
    set (o1 := flying_on_off (getFlying env)
                 (Leap.count (Leap.fingers hand)) w) in *.
    unfold stop_condition, start_condition.
    destruct (getFlying env) eqn:Hfly; mstep.
    + destruct (flying_controls_no_toggle env hand (world o1)) as [N1 N2].
      rewrite flying_controls_world.
      rewrite !existsb_app, N1, N2, !orb_false_r. cbn [orb andb negb].
      repeat split.
      * destruct (existsb is_stop_flying (trace o1)); [|trivial].
        destruct Fstop as (_ & -> & ?). auto.
      * destruct (existsb is_start_flying (trace o1)).
        -- destruct Fstart as (? & _). discriminate.
        -- destruct Fstart as (_ & [E|(E & ? & _ & ->)]); cbn; auto.
    + rewrite !existsb_app, !orb_false_r. cbn [trace ret existsb world].
      cbn [orb andb negb]. repeat split.
      * destruct (existsb is_stop_flying (trace o1)); [|trivial].
        destruct Fstop as (? & _). discriminate.
      * destruct (existsb is_start_flying (trace o1)).
        -- destruct Fstart as (_ & ? & ->). split; [|reflexivity].
           apply Z.gtb_lt. lia.
        -- destruct Fstart as (N & [E|(_ & _ & ? & _)]);
             [|discriminate].
           rewrite andb_true_r in N. auto.
  - destruct (count_many hand hand2 rest) as [-> ->].
    unfold stop_condition, start_condition.
    rewrite !andb_false_r. cbn. auto.
Qed.

(* ------------------------------------------------------------------ *)
(** ** What each mode leaves alone *)

Lemma flying_untouched_refl w : flying_untouched w w.
Proof. unfold flying_untouched. auto. Qed.

Lemma flying_untouched_trans w1 w2 w3 :
  flying_untouched w1 w2 -> flying_untouched w2 w3 -> flying_untouched w1 w3.
Proof. unfold flying_untouched. intuition congruence. Qed.

Lemma gesture_untouched_refl w : gesture_untouched w w.
Proof. unfold gesture_untouched. auto. Qed.

Lemma gesture_untouched_trans w1 w2 w3 :
  gesture_untouched w1 w2 -> gesture_untouched w2 w3 ->
  gesture_untouched w1 w3.
Proof. unfold gesture_untouched. intuition congruence. Qed.

Lemma chat_untouched_refl w : chat_untouched w w.
Proof. unfold chat_untouched. auto. Qed.

Lemma chat_untouched_trans w1 w2 w3 :
  chat_untouched w1 w2 -> chat_untouched w2 w3 -> chat_untouched w1 w3.
Proof. unfold chat_untouched. intuition congruence. Qed.

Ltac unfold_modes :=
  unfold modeFlyingControlTest, flying_on_off, flying_controls,
    modeStreamDataToSL, modeGestureDetection1, modeMoveAndCamTest1,
    modeDumpDebugInfo.

Ltac untouched :=
  intro; unfold flying_untouched, gesture_untouched, chat_untouched;
  cbn; auto.

Lemma mode_keeps_flying m env hands :
  m <> FlyingControlTest ->
  keeps flying_untouched (mode_function m env hands).
Proof.
  destruct m; [congruence | | | |]; intros _; cbn [mode_function];
    unfold_modes; keeps_tac flying_untouched_refl flying_untouched_trans;
    untouched.
Qed.

Lemma mode_keeps_gesture m env hands :
  m <> GestureDetection1 ->
  keeps gesture_untouched (mode_function m env hands).
Proof.
  destruct m; [| | congruence | |]; intros _; cbn [mode_function];
    unfold_modes; keeps_tac gesture_untouched_refl gesture_untouched_trans;
    untouched.
Qed.

Lemma mode_keeps_chat m env hands :
  m <> StreamDataToSL -> m <> GestureDetection1 ->
  keeps chat_untouched (mode_function m env hands).
Proof.
  destruct m; [| congruence | congruence | |]; intros _ _;
    cbn [mode_function];
    unfold_modes; keeps_tac chat_untouched_refl chat_untouched_trans;
    untouched.
Qed.

Lemma checkExpirationAndReset_intervals :
  0 <= LLLEAP_YAW_INTERVAL /\ 0 <= LLLEAP_CHAT_MSG_INTERVAL /\
  0 <= LLLEAP_GESTURE_INTERVAL.
Proof. cbv. repeat split; discriminate. Qed.

Lemma mode_timers_later m env hands :
  keeps timers_later (mode_function m env hands).
Proof.
  destruct checkExpirationAndReset_intervals as (Iy & Ic & Ig).
  destruct m; cbn [mode_function]; unfold_modes;
    keeps_tac timers_later_refl timers_later_trans;
    intro w; unfold timers_later;
    cbn [world modify mYawTimer_checkExpirationAndReset
         mChatMsgTimer_checkExpirationAndReset
         mGestureTimer_checkExpirationAndReset
         set_mYawTimer set_mChatMsgTimer set_mGestureTimer
         set_sLMFlyingHysteresis set_trigger_direction set_last_num_fingers
         impl statics mYawTimer mChatMsgTimer mGestureTimer];
    repeat split; try apply Z.le_refl;
    apply checkExpirationAndReset_later; assumption.
Qed.

Lemma mode_no_toggle m env hands :
  m <> FlyingControlTest ->
  emits_only no_toggle (mode_function m env hands).
Proof.
  destruct m; [congruence | | | |]; intros _; cbn [mode_function];
    unfold_modes; unfold orbit_axis; emits_only_tac.
  eapply emits_only_weaken; [|apply sum_and_log_fingers_logs].
  intros [] H; try discriminate H; reflexivity.
Qed.

Lemma sum_and_log_fingers_no_trigger fl n : forall i pos dir,
  emits_only no_trigger (sum_and_log_fingers fl n i pos dir).
Proof.
  induction n as [|n IH]; intros i pos dir; simpl.
  - apply emits_only_ret.
  - emits_only_tac. apply IH.
Qed.

Lemma mode_no_trigger m env hands :
  m <> GestureDetection1 ->
  emits_only no_trigger (mode_function m env hands).
Proof.
  destruct m; [| | congruence | |]; intros _; cbn [mode_function];
    unfold_modes; unfold orbit_axis; emits_only_tac.
  apply sum_and_log_fingers_no_trigger.
Qed.

(* ================================================================== *)
(** * Steps and runs *)

(** A step either does not reach the modes, and then leaves the statics and
    the timers alone and calls nothing but the log, or it is a poll that
    dispatches. *)
Lemma step_cases i w :
  (polled (mkObs i w (step i w)) = None /\
   statics (world (step i w)) = statics w /\
   mYawTimer (impl (world (step i w))) = mYawTimer (impl w) /\
   mChatMsgTimer (impl (world (step i w))) = mChatMsgTimer (impl w) /\
   mGestureTimer (impl (world (step i w))) = mGestureTimer (impl w) /\
   forallb plain_log (trace (step i w)) = true) \/
  (exists env c,
     i = StepFrame env /\
     polled (mkObs i w (step i w)) = Some (env, Leap.hands (Leap.frame c)) /\
     step i w
     = match mode_of_setting (LeapmotionTestMode env) with
       | Some m =>
           (emit (Invoke m) ;;
            mode_function m env (Leap.hands (Leap.frame c)))
             (set_mFrameAvailable false w)
       | None => ret tt (set_mFrameAvailable false w)
       end).
Proof.
  destruct i as [c|c|c|c|f|env]; cbn [step].
  - left. repeat split.
  - left. repeat split.
  - left. repeat split.
  - left. unfold polled, onFrame, bind, get.
    cbn [input value world trace faults].
    destruct (mLMConnected (impl w)); [|repeat split].
    destruct (negb _); repeat split.
  - left. unfold polled, set_frame. cbn. repeat split.
  - unfold polled. cbn [input before].
    destruct (mLMController (impl w)) as [c|] eqn:Hc.
    + destruct (mFrameAvailable (impl w)) eqn:Ha;
        [destruct (mLMConnected (impl w)) eqn:Hn|].
      * right. exists env, c. cbn [andb]. repeat split.
        apply stepFrame_dispatch; assumption.
      * left. rewrite stepFrame_idle by (rewrite Hc, Ha, Hn; reflexivity).
        repeat split.
      * left. rewrite stepFrame_idle by (rewrite Hc, Ha; reflexivity).
        repeat split.
    + left. rewrite stepFrame_idle by (rewrite Hc; reflexivity).
      repeat split.
Qed.

(** The steps of a run are steps, and the run goes on from the world that a
    step leaves. *)
Lemma exec_inv ins : forall w pre o rest,
  exec ins w = pre ++ o :: rest ->
  out o = step (input o) (before o) /\
  exists ins', rest = exec ins' (after o).
Proof.
  induction ins as [|i ins IH]; intros w pre o rest H.
  - destruct pre; discriminate.
  - destruct pre as [|o0 pre]; cbn in H; injection H as H1 H2.
    + subst o. cbn. split; [reflexivity|]. now exists ins.
    + eapply IH. eassumption.
Qed.

Lemma exec_cons ins w o rest :
  exec ins w = o :: rest ->
  before o = w /\ out o = step (input o) w /\
  exists ins', rest = exec ins' (after o).
Proof.
  destruct ins as [|i ins]; [discriminate|].
  cbn. intros H. injection H as <- <-. cbn. repeat split. now exists ins.
Qed.

Lemma obs_eta o :
  out o = step (input o) (before o) ->
  o = mkObs (input o) (before o) (step (input o) (before o)).
Proof. destruct o as [i w r]. cbn. now intros ->. Qed.

Lemma existsb_plain_logs (f : Event -> bool) (l : list Event) :
  (forall msg, is_gunfire (llinfos msg) = false -> f (llinfos msg) = false) ->
  forallb plain_log l = true -> existsb f l = false.
Proof.
  intros Hf. apply existsb_none. intros [] H; try discriminate H.
  apply andb_true_iff in H as [_ H]. apply negb_true_iff in H. auto.
Qed.

Lemma set_mChatMsgTimer_same w : set_mChatMsgTimer (mChatMsgTimer (impl w)) w = w.
Proof. destruct w as [[] []]. reflexivity. Qed.

(** [modeStreamDataToSL] emits nothing; it arms the chat timer again when
    there is exactly one hand and the timer has expired. *)
Lemma modeStreamDataToSL_effect env hands w :
  trace (modeStreamDataToSL env hands w) = [] /\
  faults (modeStreamDataToSL env hands w) = [] /\
  world (modeStreamDataToSL env hands w)
  = if (Leap.count hands =? 1)
       && negb (clock env <? mExpirationTicks (mChatMsgTimer (impl w)))
    then set_mChatMsgTimer
           (mkTimer (clock env + LLLEAP_CHAT_MSG_INTERVAL)) w
    else w.
Proof.
  unfold modeStreamDataToSL.
  destruct (Z.eqb_spec (Leap.count hands) 1) as [E|E].
  - apply count_one in E as [hand ->]. rewrite at_index_single.
    mstep. unfold checkExpirationAndReset.
    destruct (clock env <? _); cbn [fst snd negb andb];
      rewrite ?set_mChatMsgTimer_same; auto.
  - auto.
Qed.

(** In a poll the modes see the world with the flag lowered: its statics
    and timers are those of the world before. *)
Ltac mode_cases env :=
  let E := fresh "E" in
  let Hm := fresh "Hm" in
  destruct (mode_of_setting_cases (LeapmotionTestMode env))
    as [[E Hm]|[[E Hm]|[[E Hm]|[[E Hm]|[[E Hm]|(?&?&?&?&?&Hm)]]]]];
  rewrite Hm in *; try rewrite E in *.

Lemma step_timers_later i w : timers_later w (world (step i w)).
Proof.
  destruct (step_cases i w) as [(_ & _ & Ey & Ec & Eg & _)|(env & c & -> & _ & ->)].
  - unfold timers_later. rewrite Ey, Ec, Eg. lia.
  - destruct (mode_of_setting _) as [m|]; [|unfold timers_later; cbn; lia].
    rewrite world_bind. cbn [emit value world].
    exact (mode_timers_later m env _ (set_mFrameAvailable false w)).
Qed.

Lemma step_yaw_turn i w :
  yaw_turn (mkObs i w (step i w)) = true ->
  mExpirationTicks (mYawTimer (impl w)) <= tick (mkObs i w (step i w)) /\
  mYawTimer (impl (world (step i w)))
  = mkTimer (tick (mkObs i w (step i w)) + LLLEAP_YAW_INTERVAL).
Proof.
  unfold yaw_turn, evaluates, events, tick. cbn [out input].
  destruct (step_cases i w) as [(-> & _)|(env & c & -> & -> & ->)];
    [discriminate|].
  mode_cases env; cbn [Z.eqb Pos.eqb]; try discriminate.
  - rewrite trace_bind, world_bind. cbn [emit value world trace app existsb is_yaw orb].
    apply (modeFlyingControlTest_yaw env _ (set_mFrameAvailable false w)).
  - destruct (Z.eqb_spec (LeapmotionTestMode env) 0); [contradiction|discriminate].
Qed.

Lemma modeGestureDetection1_idle env hands w :
  Leap.count hands <> 1 -> modeGestureDetection1 env hands w = ret tt w.
Proof.
  intros H. unfold modeGestureDetection1.
  destruct (Z.eqb_spec (Leap.count hands) 1); [contradiction|reflexivity].
Qed.

Lemma not_one_hand (hands : list Leap.Hand) :
  match hands with [_] => False | _ => True end -> Leap.count hands <> 1.
Proof.
  destruct hands as [|a [|b l]]; intros H E; try contradiction.
  - discriminate.
  - rewrite !count_cons in E. pose proof (count_nonneg l). lia.
Qed.

Lemma existsb_no_trigger (l : list Event) :
  forallb no_trigger l = true ->
  existsb is_gunfire l = false /\ existsb is_gesture l = false.
Proof.
  intros H. split; apply existsb_none with (2 := H); intros e He;
    apply andb_true_iff in He as [H1 H2];
    now apply negb_true_iff in H1, H2.
Qed.

Lemma existsb_no_toggle (l : list Event) :
  forallb no_toggle l = true ->
  existsb is_stop_flying l = false /\ existsb is_start_flying l = false.
Proof.
  intros H. split; apply existsb_none with (2 := H); intros e He;
    apply andb_true_iff in He as [H1 H2];
    now apply negb_true_iff in H1, H2.
Qed.

(** A step that is not an evaluation of [modeGestureDetection1] on one hand
    leaves what belongs to the gesture detection alone. *)
Lemma step_not_gesture i w :
  one_hand_fingers (mkObs i w (step i w)) = None ->
  gunfire (mkObs i w (step i w)) = false /\
  gesture_triggered (mkObs i w (step i w)) = false /\
  gesture_untouched w (world (step i w)).
Proof.
  unfold one_hand_fingers, evaluates, gunfire, gesture_triggered, events.
  cbn [out].
  destruct (step_cases i w)
    as [(-> & Es & _ & _ & Eg & L)|(env & c & -> & -> & ->)].
  - intros _. unfold gesture_untouched. rewrite Es, Eg.
    repeat split; apply existsb_plain_logs with (2 := L); auto.
  - set (hands := Leap.hands (Leap.frame c)).
    set (w' := set_mFrameAvailable false w).
    assert (K : forall m, m <> GestureDetection1 ->
              existsb is_gunfire (trace ((emit (Invoke m) ;; mode_function m env hands) w')) = false /\
              existsb is_gesture (trace ((emit (Invoke m) ;; mode_function m env hands) w')) = false /\
              gesture_untouched w (world ((emit (Invoke m) ;; mode_function m env hands) w'))).
    { intros m Hm. rewrite trace_bind, world_bind.
      cbn [emit value world trace app existsb is_gunfire is_gesture orb].
      destruct (existsb_no_trigger _ (mode_no_trigger m env hands Hm w')).
      split; [assumption | split; [assumption|]].
      exact (mode_keeps_gesture m env hands Hm w'). }
    mode_cases env; cbn [Z.eqb Pos.eqb]; intros Hh;
      try (apply K; discriminate).
    + cbn [mode_function]. rewrite trace_bind, world_bind.
      cbn [emit value world trace app existsb is_gunfire is_gesture orb].
      rewrite modeGestureDetection1_idle.
      * cbn. unfold gesture_untouched. auto.
      * apply not_one_hand. destruct hands as [|a [|b l]]; auto. discriminate.
    + cbn. unfold gesture_untouched. auto.
Qed.

(** A step that is such an evaluation. *)
Lemma step_gesture_eval i w n :
  one_hand_fingers (mkObs i w (step i w)) = Some n ->
  exists env hand,
    i = StepFrame env /\ n = Leap.count (Leap.fingers hand) /\
    evaluates 2 (mkObs i w (step i w)) = Some (env, [hand]) /\
    trace (step i w)
    = Invoke GestureDetection1
        :: trace (modeGestureDetection1 env [hand]
                    (set_mFrameAvailable false w)) /\
    world (step i w)
    = world (modeGestureDetection1 env [hand] (set_mFrameAvailable false w)).
Proof.
  unfold one_hand_fingers, evaluates.
  destruct (step_cases i w) as [(-> & _)|(env & c & -> & -> & ->)];
    [discriminate|].
  destruct (Z.eqb_spec (LeapmotionTestMode env) 2) as [E|E]; [|discriminate].
  unfold mode_of_setting. rewrite E. cbn [Z.eqb Pos.eqb mode_function].
  destruct (Leap.hands (Leap.frame c)) as [|hand [|]]; try discriminate.
  intros H. injection H as <-. exists env, hand. repeat split.
Qed.

(** A step that is not an evaluation of [modeFlyingControlTest] leaves what
    belongs to it alone. *)
Lemma step_not_flying i w :
  flying_evaluation (mkObs i w (step i w)) = false ->
  stops_flight (mkObs i w (step i w)) = false /\
  starts_flight (mkObs i w (step i w)) = false /\
  flying_untouched w (world (step i w)).
Proof.
  unfold flying_evaluation, evaluates, stops_flight, starts_flight, events.
  cbn [out].
  destruct (step_cases i w)
    as [(-> & Es & Ey & _ & _ & L)|(env & c & -> & -> & ->)].
  - intros _. unfold flying_untouched. rewrite Es, Ey.
    repeat split; apply existsb_plain_logs with (2 := L); auto.
  - set (hands := Leap.hands (Leap.frame c)).
    set (w' := set_mFrameAvailable false w).
    assert (K : forall m, m <> FlyingControlTest ->
              existsb is_stop_flying
                (trace ((emit (Invoke m) ;; mode_function m env hands) w'))
              = false /\
              existsb is_start_flying
                (trace ((emit (Invoke m) ;; mode_function m env hands) w'))
              = false /\
              flying_untouched w
                (world ((emit (Invoke m) ;; mode_function m env hands) w'))).
    { intros m Hm. rewrite trace_bind, world_bind.
      cbn [emit value world trace app existsb is_stop_flying
           is_start_flying orb].
      destruct (existsb_no_toggle _ (mode_no_toggle m env hands Hm w')).
      split; [assumption | split; [assumption|]].
      exact (mode_keeps_flying m env hands Hm w'). }
    mode_cases env; cbn [Z.eqb Pos.eqb]; intros Hh;
      try discriminate; try (apply K; discriminate).
    cbn. unfold flying_untouched. auto.
Qed.

(** A step that is such an evaluation. *)
Lemma step_flying_eval i w :
  flying_evaluation (mkObs i w (step i w)) = true ->
  exists env hands,
    i = StepFrame env /\
    evaluates 0 (mkObs i w (step i w)) = Some (env, hands) /\
    trace (step i w)
    = Invoke FlyingControlTest
        :: trace (modeFlyingControlTest env hands
                    (set_mFrameAvailable false w)) /\
    world (step i w)
    = world (modeFlyingControlTest env hands (set_mFrameAvailable false w)).
Proof.
  unfold flying_evaluation, evaluates.
  destruct (step_cases i w) as [(-> & _)|(env & c & -> & -> & ->)];
    [discriminate|].
  destruct (Z.eqb_spec (LeapmotionTestMode env) 0) as [E|E]; [|discriminate].
  unfold mode_of_setting. rewrite E. cbn [Z.eqb mode_function].
  intros _. exists env, (Leap.hands (Leap.frame c)). repeat split.
Qed.

(** What a step does to the hysteresis counter. *)
Lemma step_counter i w :
  let o := mkObs i w (step i w) in
  let h := sLMFlyingHysteresis (statics w) in
  let h' := sLMFlyingHysteresis (statics (world (step i w))) in
  h < 2 ^ 31 ->
  (stops_flight o = true -> stop_evaluation o = true /\ h' <= 0) /\
  (if starts_flight o
   then h' = 5
   else h' = h \/ (h' = h - 1 /\ 0 < h /\ stop_evaluation o = true)).
Proof.
  cbv zeta. intros Hh.
  destruct (flying_evaluation (mkObs i w (step i w))) eqn:F.
  - destruct (step_flying_eval i w F) as (env & hands & -> & Ev & Et & Ew).
    unfold stops_flight, starts_flight, stop_evaluation, events.
    cbn [out]. rewrite Ev, Et, Ew.
    cbn [existsb is_stop_flying is_start_flying orb].
    pose proof (modeFlyingControlTest_cases env hands
                  (set_mFrameAvailable false w) Hh) as C.
    cbv zeta in C. destruct C as [C1 C2].
    split.
    + intros S. rewrite S in C1. exact C1.
    + destruct (existsb is_start_flying _); [apply C2|].
      destruct C2 as (_ & [C2|C2]); [left|right]; exact C2.
  - destruct (step_not_flying i w F) as (-> & -> & E & _).
    split; [discriminate|]. left. exact E.
Qed.

Lemma step_start i w :
  sLMFlyingHysteresis (statics w) < 2 ^ 31 ->
  start_evaluation (mkObs i w (step i w)) = true ->
  starts_flight (mkObs i w (step i w)) = true /\
  sLMFlyingHysteresis (statics (world (step i w))) = 5.
Proof.
  intros Hh S.
  assert (F : flying_evaluation (mkObs i w (step i w)) = true).
  { unfold flying_evaluation. unfold start_evaluation in S.
    destruct (evaluates 0 _); [reflexivity|discriminate]. }
  destruct (step_flying_eval i w F) as (env & hands & -> & Ev & Et & Ew).
  unfold start_evaluation in S. rewrite Ev in S.
  unfold starts_flight, events. cbn [out]. rewrite Et, Ew.
  cbn [existsb is_start_flying orb].
  pose proof (modeFlyingControlTest_cases env hands
                (set_mFrameAvailable false w) Hh) as C.
  cbv zeta in C. destruct C as [_ C].
  destruct (existsb is_start_flying _).
  - split; [reflexivity|apply C].
  - destruct C as [C _]. congruence.
Qed.

Lemma stop_evaluations_nonneg l : 0 <= stop_evaluations l.
Proof. unfold stop_evaluations. lia. Qed.

Lemma stop_evaluations_cons o l :
  stop_evaluations (o :: l)
  = (if stop_evaluation o then 1 else 0) + stop_evaluations l.
Proof.
  unfold stop_evaluations. cbn [filter].
  destruct (stop_evaluation o); cbn [List.length]; lia.
Qed.

Lemma stop_evaluations_app l1 l2 :
  stop_evaluations (l1 ++ l2) = stop_evaluations l1 + stop_evaluations l2.
Proof.
  unfold stop_evaluations. rewrite filter_app, length_app. lia.
Qed.

(** Along a run the counter stays an [S32], and it falls below a level it
    had only by stop-condition evaluations, one each. *)
Lemma run_counter ins : forall w mid o rest K,
  exec ins w = mid ++ o :: rest ->
  sLMFlyingHysteresis (statics w) < 2 ^ 31 ->
  K <= 5 -> K <= sLMFlyingHysteresis (statics w) ->
  sLMFlyingHysteresis (statics (before o)) < 2 ^ 31 /\
  K <= sLMFlyingHysteresis (statics (before o)) + stop_evaluations mid.
Proof.
  induction ins as [|i ins IH]; intros w mid o rest K H Hh HK Hw.
  - destruct mid; discriminate.
  - destruct mid as [|o0 mid]; cbn in H; injection H as H1 H2.
    + subst o. cbn. unfold stop_evaluations. cbn. lia.
    + pose proof (step_counter i w Hh) as C. cbv zeta in C.
      destruct C as [_ C]. subst o0.
      rewrite stop_evaluations_cons.
      pose proof (stop_evaluations_nonneg mid).
      destruct (starts_flight _).
      * destruct (IH _ _ _ _ K H2) as [B1 B2]; try lia.
        split; [assumption|]. destruct (stop_evaluation _); lia.
      * destruct C as [C|(C & C0 & ->)].
        -- destruct (IH _ _ _ _ K H2) as [B1 B2]; try lia.
           split; [assumption|]. destruct (stop_evaluation _); lia.
        -- destruct (IH _ _ _ _ (K - 1) H2) as [B1 B2]; try lia.
Qed.

(** C8, as the code has it. An evaluation that starts the flight sets the
    counter to 5. Flight is stopped only in an evaluation whose stop
    condition holds and that leaves the counter not positive. So between a
    start and a stop of the flight there are at least five evaluations whose
    stop condition holds, the stopping one included; they need not come in a
    row. *)
Theorem C8_flight_stops_after_five_stop_evaluations
  ins w pre oi mid oj post :
  exec ins w = pre ++ oi :: mid ++ oj :: post ->
  sLMFlyingHysteresis (statics w) < 2 ^ 31 ->
  (start_evaluation oi = true ->
   starts_flight oi = true /\ sLMFlyingHysteresis (statics (after oi)) = 5) /\
  (stops_flight oj = true ->
   stop_evaluation oj = true /\
   sLMFlyingHysteresis (statics (after oj)) <= 0) /\
  (starts_flight oi = true -> stops_flight oj = true ->
   5 <= stop_evaluations (mid ++ [oj])).
Proof.
  intros H Hh.
  destruct (exec_inv _ _ _ _ _ H) as (Ei & ins1 & H1). symmetry in H1.
  destruct (exec_inv _ _ _ _ _ H1) as (Ej & _).
  destruct (run_counter _ _ _ _ _
              (Z.min 0 (sLMFlyingHysteresis (statics w))) H Hh)
    as [Bi _]; try lia.
  apply obs_eta in Ei, Ej.
  pose proof (step_counter (input oi) (before oi) Bi) as Ci.
  cbv zeta in Ci. rewrite <- Ei in Ci. destruct Ci as [_ Ci].
  assert (Start : starts_flight oi = true ->
                  sLMFlyingHysteresis (statics (after oi)) = 5).
  { intros S. rewrite S in Ci. rewrite Ei. exact Ci. }
  assert (Stop : sLMFlyingHysteresis (statics (after oi)) < 2 ^ 31 ->
                 5 <= sLMFlyingHysteresis (statics (after oi)) ->
                 stops_flight oj = true ->
                 stop_evaluation oj = true /\
                 sLMFlyingHysteresis (statics (after oj)) <= 0 /\
                 5 <= stop_evaluations (mid ++ [oj])).
  { intros B1 B2 S.
    destruct (run_counter _ _ _ _ _ 5 H1 B1) as [Bj Kj]; try lia.
    pose proof (step_counter (input oj) (before oj) Bj) as Cj.
    cbv zeta in Cj. rewrite <- Ej in Cj. destruct Cj as [Cj1 Cj2].
    destruct (Cj1 S) as [Sj Hj]. change (world (step _ _)) with
      (after (mkObs (input oj) (before oj) (step (input oj) (before oj))))
      in Hj, Cj2. rewrite <- Ej in Hj, Cj2.
    split; [assumption | split; [assumption|]].
    rewrite stop_evaluations_app, stop_evaluations_cons, Sj.
    unfold stop_evaluations at 2. cbn [filter List.length Z.of_nat].
    destruct (starts_flight oj); lia. }
  split; [|split].
  - rewrite Ei. unfold after. cbn [out]. apply step_start. assumption.
  - intros S.
    assert (H' : exec ins w = (pre ++ oi :: mid) ++ oj :: post).
    { rewrite H, <- app_assoc. reflexivity. }
    destruct (run_counter _ _ _ _ _
                (Z.min 0 (sLMFlyingHysteresis (statics w))) H' Hh)
      as [Bj _]; try lia.
    pose proof (step_counter (input oj) (before oj) Bj) as Cj.
    cbv zeta in Cj. rewrite <- Ej in Cj. destruct Cj as [Cj _].
    rewrite Ej at 2. apply Cj, S.
  - intros S1 S2. apply Stop; auto; rewrite (Start S1); lia.
Qed.

Lemma C8_flight_stops_after_five_stop_evaluations_witness :
  5 <= stop_evaluations
         (firstn 17 (skipn 4 (exec flight_run world0))
            ++ [nth 21 (exec flight_run world0)
                  no_obs]).
Proof.
  refine (proj2 (proj2
    (C8_flight_stops_after_five_stop_evaluations flight_run world0
       (firstn 3 (exec flight_run world0))
       (nth 3 (exec flight_run world0)
          no_obs)
       (firstn 17 (skipn 4 (exec flight_run world0)))
       (nth 21 (exec flight_run world0)
          no_obs)
       [] _ _)) _ _).
  - vm_compute. reflexivity.
  - vm_compute. reflexivity.
  - vm_compute. reflexivity.
  - vm_compute. reflexivity.
Defined.

(** C8, as it is stated, fails: the evaluations that run the counter down
    need not come in a row. In [flight_run] the flight is started and then
    stopped by a poll that follows an evaluation whose stop condition does
    not hold. *)
Lemma C8_stop_without_five_in_a_row :
  ~ (forall ins w pre oi mid oj post,
       exec ins w = pre ++ oi :: mid ++ oj :: post ->
       sLMFlyingHysteresis (statics w) < 2 ^ 31 ->
       starts_flight oi = true -> stops_flight oj = true ->
       5 <= consecutive_stops (mid ++ [oj])).
Proof.
  intros C.
  specialize (C flight_run world0
       (firstn 3 (exec flight_run world0))
       (nth 3 (exec flight_run world0)
          no_obs)
       (firstn 17 (skipn 4 (exec flight_run world0)))
       (nth 21 (exec flight_run world0)
          no_obs)
       []).
  assert (E : consecutive_stops
                (firstn 17 (skipn 4 (exec flight_run world0))
                   ++ [nth 21 (exec flight_run world0)
                         no_obs]) = 1)
    by (vm_compute; reflexivity).
  rewrite E in C.
  assert (F : 5 <= 1); [|lia].
  apply C; vm_compute; reflexivity.
Qed.

(** What a step does for the gesture detection, by what it emits. *)
Lemma step_trigger i w :
  let o := mkObs i w (step i w) in
  let td := trigger_direction (statics w) in
  let td' := trigger_direction (statics (world (step i w))) in
  (if gunfire o
   then td < 0 /\ td' = 1 /\
        mExpirationTicks (mChatMsgTimer (impl w)) <= tick o /\
        mChatMsgTimer (impl (world (step i w)))
        = mkTimer (tick o + LLLEAP_CHAT_MSG_INTERVAL)
   else td' = td \/ trigger_reset o = true) /\
  (if gesture_triggered o
   then one_hand_fingers o = Some 5 /\
        last_num_fingers (statics w) = 5 /\
        mExpirationTicks (mGestureTimer (impl w)) <= tick o /\
        mGestureTimer (impl (world (step i w)))
        = mkTimer (tick o + LLLEAP_GESTURE_INTERVAL)
   else True) /\
  last_num_fingers (statics (world (step i w)))
  = match one_hand_fingers o with
    | Some n => n
    | None => last_num_fingers (statics w)
    end.
Proof.
  cbv zeta.
  destruct (one_hand_fingers (mkObs i w (step i w))) as [n|] eqn:F.
  - destruct (step_gesture_eval i w n F)
      as (env & hand & -> & -> & Ev & Et & Ew).
    unfold gunfire, gesture_triggered, trigger_reset, events, after, tick.
    cbn [out before input]. rewrite Ev, Et, Ew.
    cbn [existsb is_gunfire is_gesture orb].
    pose proof (modeGestureDetection1_one_hand env hand
                  (set_mFrameAvailable false w)) as G.
    cbv zeta in G. destruct G as (G1 & G2 & G3).
    split; [|split].
    + destruct (existsb is_gunfire _).
      * destruct G2 as (? & ? & ? & ? & _). auto.
      * destruct G2 as (_ & [G2|[G2 R]]); [left; exact G2|].
        destruct (Z.eqb_spec (trigger_direction (statics w)) (-1)) as [E|E].
        -- left. cbn in G2 |- *. congruence.
        -- right. rewrite R, G2. reflexivity.
    + destruct (existsb is_gesture _); [|trivial].
      destruct G3 as (-> & ? & ? & ? & _). auto.
    + exact G1.
  - destruct (step_not_gesture i w F) as (-> & -> & E1 & E2 & _).
    auto.
Qed.

(* ------------------------------------------------------------------ *)
(** ** The marked place *)

Lemma marks_bind {A B : Type} (m : M A) (k : A -> M B) (w : World) :
  marks (bind m k w) = marks (m w) ++ marks (k (value (m w)) (world (m w))).
Proof. reflexivity. Qed.

Lemma unmarked_ret {A : Type} (a : A) : unmarked (ret a).
Proof. intro w. reflexivity. Qed.

Lemma unmarked_get {A : Type} (f : World -> A) : unmarked (get f).
Proof. intro w. reflexivity. Qed.

Lemma unmarked_modify (f : World -> World) : unmarked (modify f).
Proof. intro w. reflexivity. Qed.

Lemma unmarked_emit (e : Event) : unmarked (emit e).
Proof. intro w. reflexivity. Qed.

Lemma unmarked_fault (f : Fault) : unmarked (fault f).
Proof. intro w. reflexivity. Qed.

Lemma unmarked_bind {A B : Type} (m : M A) (k : A -> M B) :
  unmarked m -> (forall a, unmarked (k a)) -> unmarked (bind m k).
Proof. intros Hm Hk w. now rewrite marks_bind, Hm, Hk. Qed.

Lemma unmarked_if {A : Type} (b : bool) (m1 m2 : M A) :
  unmarked m1 -> unmarked m2 -> unmarked (if b then m1 else m2).
Proof. destruct b; auto. Qed.

Lemma unmarked_at_index {A : Type} (l : list A) (i : Z) (d : A) :
  unmarked (at_index l i d).
Proof. intro w. unfold at_index. destruct (_ && _); reflexivity. Qed.

Lemma unmarked_vector_div_count (v : Leap.Vector) (n : Z) :
  unmarked (vector_div_count v n).
Proof.
  intro w. unfold vector_div_count, div_count. destruct (n =? 0); reflexivity.
Qed.

Lemma unmarked_yaw_timer env i :
  unmarked (mYawTimer_checkExpirationAndReset env i).
Proof. intro w. reflexivity. Qed.

Lemma unmarked_chat_timer env i :
  unmarked (mChatMsgTimer_checkExpirationAndReset env i).
Proof. intro w. reflexivity. Qed.

Lemma unmarked_gesture_timer env i :
  unmarked (mGestureTimer_checkExpirationAndReset env i).
Proof. intro w. reflexivity. Qed.

Lemma unmarked_sum_tipPosition fl n : forall i pos,
  unmarked (sum_tipPosition fl n i pos).
Proof.
  induction n as [|n IH]; intros i pos; simpl.
  - apply unmarked_ret.
  - apply unmarked_bind; [apply unmarked_at_index | intro; apply IH].
Qed.

Lemma unmarked_sum_and_log_fingers fl n : forall i pos dir,
  unmarked (sum_and_log_fingers fl n i pos dir).
Proof.
  induction n as [|n IH]; intros i pos dir; simpl.
  - apply unmarked_ret.
  - apply unmarked_bind; [apply unmarked_at_index | intro].
    apply unmarked_bind; [apply unmarked_emit | intro; apply IH].
Qed.

Ltac unmarked_step :=
  lazymatch goal with
  | |- unmarked (bind _ _) => apply unmarked_bind; [| intro]
  | |- unmarked (ret _) => apply unmarked_ret
  | |- unmarked (get _) => apply unmarked_get
  | |- unmarked (modify _) => apply unmarked_modify
  | |- unmarked (emit _) => apply unmarked_emit
  | |- unmarked (fault _) => apply unmarked_fault
  | |- unmarked (at_index _ _ _) => apply unmarked_at_index
  | |- unmarked (vector_div_count _ _) => apply unmarked_vector_div_count
  | |- unmarked (mYawTimer_checkExpirationAndReset _ _) =>
      apply unmarked_yaw_timer
  | |- unmarked (mChatMsgTimer_checkExpirationAndReset _ _) =>
      apply unmarked_chat_timer
  | |- unmarked (mGestureTimer_checkExpirationAndReset _ _) =>
      apply unmarked_gesture_timer
  | |- unmarked (sum_tipPosition _ _ _ _) => apply unmarked_sum_tipPosition
  | |- unmarked (sum_and_log_fingers _ _ _ _ _) =>
      apply unmarked_sum_and_log_fingers
  | |- unmarked (if _ then _ else _) => apply unmarked_if
  | |- unmarked (match ?x with _ => _ end) => destruct x
  end.

(** The marked place lies in [modeStreamDataToSL] only. *)
Lemma mode_unmarked m env hands :
  m <> StreamDataToSL -> unmarked (mode_function m env hands).
Proof.
  destruct m; [| congruence | | |]; intros _; cbn [mode_function];
    unfold_modes; unfold orbit_axis; repeat unmarked_step.
Qed.

(** [modeStreamDataToSL] passes the marked place only when it has found the
    chat timer expired, and then it has armed the timer again. *)
Lemma modeStreamDataToSL_marked env hands w :
  existsb is_chat_formatted (marks (modeStreamDataToSL env hands w)) = true ->
  mExpirationTicks (mChatMsgTimer (impl w)) <= clock env /\
  mChatMsgTimer (impl (world (modeStreamDataToSL env hands w)))
  = mkTimer (clock env + LLLEAP_CHAT_MSG_INTERVAL).
Proof.
  unfold modeStreamDataToSL.
  destruct (Z.eqb_spec (Leap.count hands) 1) as [E|E].
  - apply count_one in E as [hand ->]. rewrite at_index_single.
    mstep.
    destruct (fst (checkExpirationAndReset (clock env)
                     LLLEAP_CHAT_MSG_INTERVAL (mChatMsgTimer (impl w))))
      eqn:X; mstep; [|discriminate].
    intros _. apply checkExpirationAndReset_true in X as [X1 X2].
    cbn [set_mChatMsgTimer impl mChatMsgTimer]. auto.
  - mstep. discriminate.
Qed.

(** The callbacks pass no marked place. *)
Lemma step_unpolled_marks i w :
  polled (mkObs i w (step i w)) = None -> marks (step i w) = [].
Proof.
  destruct i as [c|c|c|c|f|env]; cbn [step]; intros P;
    try reflexivity.
  - unfold onFrame, bind, get. cbn [value world trace faults marks].
    destruct (mLMConnected (impl w)); [|reflexivity].
    destruct (negb _); reflexivity.
  - unfold polled in P. cbn [input before] in P.
    rewrite stepFrame_idle; [reflexivity|].
    destruct (mLMController (impl w)); [|reflexivity].
    destruct (_ && _); [discriminate|reflexivity].
Qed.

(** A chat attempt finds the chat timer expired and arms it again. *)
Lemma step_chat_attempt i w :
  chat_attempt (mkObs i w (step i w)) = true ->
  mExpirationTicks (mChatMsgTimer (impl w)) <= tick (mkObs i w (step i w)) /\
  mChatMsgTimer (impl (world (step i w)))
  = mkTimer (tick (mkObs i w (step i w)) + LLLEAP_CHAT_MSG_INTERVAL).
Proof.
  unfold chat_attempt. cbn [out]. intros H.
  apply orb_true_iff in H as [H|H].
  - revert H. unfold tick. cbn [input].
    destruct (step_cases i w) as [(P & _)|(env & c & -> & _ & ->)].
    + rewrite (step_unpolled_marks i w P). discriminate.
    + destruct (mode_of_setting _) as [m|]; [|discriminate].
      rewrite marks_bind, world_bind.
      cbn [emit value world marks app].
      intros X.
      assert (U : m <> StreamDataToSL ->
                  marks (mode_function m env (Leap.hands (Leap.frame c))
                           (set_mFrameAvailable false w)) = [])
        by (intros N; apply mode_unmarked, N).
      destruct m; try (rewrite U in X by discriminate; discriminate X).
      exact (modeStreamDataToSL_marked env _ (set_mFrameAvailable false w) X).
  - pose proof (step_trigger i w) as T. cbv zeta in T.
    destruct T as [T _]. unfold gunfire in T. rewrite H in T.
    destruct T as (_ & _ & ? & ?). auto.
Qed.

(** Along a run no timer expires earlier than before. *)
Lemma run_timers_later ins : forall w mid o rest,
  exec ins w = mid ++ o :: rest -> timers_later w (before o).
Proof.
  induction ins as [|i ins IH]; intros w mid o rest H.
  - destruct mid; discriminate.
  - destruct mid as [|o0 mid]; cbn in H; injection H as H1 H2.
    + subst o. apply timers_later_refl.
    + eapply timers_later_trans; [apply (step_timers_later i w)|].
      eapply IH. eassumption.
Qed.

(** C6 (modelled timers). A yaw turn of [modeFlyingControlTest], a chat
    attempt and a triggered gesture happen only in a poll that finds the
    timer of their kind expired, and that poll arms the timer again, one
    interval after its tick. So two actions of one kind are at least the
    interval of the kind apart: 0.075 s for the yaw turns, 0.2 s for the chat
    attempts, 3 s for the gestures. *)
Theorem C6_actions_are_rate_limited ins w pre oi mid oj post :
  exec ins w = pre ++ oi :: mid ++ oj :: post ->
  (yaw_turn oj = true -> fires mYawTimer LLLEAP_YAW_INTERVAL oj) /\
  (chat_attempt oj = true ->
   fires mChatMsgTimer LLLEAP_CHAT_MSG_INTERVAL oj) /\
  (gesture_triggered oj = true ->
   fires mGestureTimer LLLEAP_GESTURE_INTERVAL oj) /\
  (yaw_turn oi = true -> yaw_turn oj = true ->
   tick oi + LLLEAP_YAW_INTERVAL <= tick oj) /\
  (chat_attempt oi = true -> chat_attempt oj = true ->
   tick oi + LLLEAP_CHAT_MSG_INTERVAL <= tick oj) /\
  (gesture_triggered oi = true -> gesture_triggered oj = true ->
   tick oi + LLLEAP_GESTURE_INTERVAL <= tick oj).
Proof.
  intros H.
  destruct (exec_inv _ _ _ _ _ H) as (Ei & ins1 & H1). symmetry in H1.
  destruct (exec_inv _ _ _ _ _ H1) as (Ej & _).
  pose proof (run_timers_later _ _ _ _ _ H1) as (Ly & Lc & Lg).
  apply obs_eta in Ei, Ej.
  assert (Y : forall o, o = mkObs (input o) (before o)
                              (step (input o) (before o)) ->
              yaw_turn o = true -> fires mYawTimer LLLEAP_YAW_INTERVAL o).
  { intros o E Ho. rewrite E in Ho |- *.
    exact (step_yaw_turn _ _ Ho). }
  assert (C : forall o, o = mkObs (input o) (before o)
                              (step (input o) (before o)) ->
              chat_attempt o = true ->
              fires mChatMsgTimer LLLEAP_CHAT_MSG_INTERVAL o).
  { intros o E Ho. rewrite E in Ho |- *.
    exact (step_chat_attempt _ _ Ho). }
  assert (G : forall o, o = mkObs (input o) (before o)
                              (step (input o) (before o)) ->
              gesture_triggered o = true ->
              fires mGestureTimer LLLEAP_GESTURE_INTERVAL o).
  { intros o E Ho. rewrite E in Ho |- *.
    pose proof (step_trigger (input o) (before o)) as T. cbv zeta in T.
    destruct T as (_ & T & _). rewrite Ho in T.
    destruct T as (_ & _ & ? & ?). split; assumption. }
  split; [auto | split; [auto | split; [auto|]]].
  split; [|split]; intros Hi Hj.
  - destruct (Y oi Ei Hi) as [_ Ri], (Y oj Ej Hj) as [Xj _].
    rewrite Ri in Ly. cbn in Ly. lia.
  - destruct (C oi Ei Hi) as [_ Ri], (C oj Ej Hj) as [Xj _].
    rewrite Ri in Lc. cbn in Lc. lia.
  - destruct (G oi Ei Hi) as [_ Ri], (G oj Ej Hj) as [Xj _].
    rewrite Ri in Lg. cbn in Lg. lia.
Qed.

Lemma C6_actions_are_rate_limited_witness :
  (yaw_turn (nth 3 (exec turn_run world0) no_obs) = true /\
   yaw_turn (nth 9 (exec turn_run world0) no_obs) = true /\
   tick (nth 3 (exec turn_run world0) no_obs) + LLLEAP_YAW_INTERVAL
   <= tick (nth 9 (exec turn_run world0) no_obs)) /\
  (chat_attempt (nth 3 (exec stream_run world0) no_obs) = true /\
   chat_attempt (nth 6 (exec stream_run world0) no_obs) = false /\
   chat_attempt (nth 9 (exec stream_run world0) no_obs) = true /\
   tick (nth 3 (exec stream_run world0) no_obs) + LLLEAP_CHAT_MSG_INTERVAL
   <= tick (nth 9 (exec stream_run world0) no_obs)) /\
  (gesture_triggered (nth 6 (exec wave_twice_run world0) no_obs) = true /\
   gesture_triggered (nth 9 (exec wave_twice_run world0) no_obs) = true /\
   tick (nth 6 (exec wave_twice_run world0) no_obs) + LLLEAP_GESTURE_INTERVAL
   <= tick (nth 9 (exec wave_twice_run world0) no_obs)).
Proof.
  split; [|split].
  - split; [vm_compute; reflexivity | split; [vm_compute; reflexivity|]].
    refine (proj1 (proj2 (proj2 (proj2
      (C6_actions_are_rate_limited turn_run world0
         (firstn 3 (exec turn_run world0))
         (nth 3 (exec turn_run world0) no_obs)
         (firstn 5 (skipn 4 (exec turn_run world0)))
         (nth 9 (exec turn_run world0) no_obs)
         [] _)))) _ _); vm_compute; reflexivity.
  - split; [vm_compute; reflexivity | split; [vm_compute; reflexivity|]].
    split; [vm_compute; reflexivity|].
    refine (proj1 (proj2 (proj2 (proj2 (proj2
      (C6_actions_are_rate_limited stream_run world0
         (firstn 3 (exec stream_run world0))
         (nth 3 (exec stream_run world0) no_obs)
         (firstn 5 (skipn 4 (exec stream_run world0)))
         (nth 9 (exec stream_run world0) no_obs)
         [] _))))) _ _); vm_compute; reflexivity.
  - split; [vm_compute; reflexivity | split; [vm_compute; reflexivity|]].
    refine (proj2 (proj2 (proj2 (proj2 (proj2
      (C6_actions_are_rate_limited wave_twice_run world0
         (firstn 6 (exec wave_twice_run world0))
         (nth 6 (exec wave_twice_run world0) no_obs)
         (firstn 2 (skipn 7 (exec wave_twice_run world0)))
         (nth 9 (exec wave_twice_run world0) no_obs)
         [] _))))) _ _); vm_compute; reflexivity.
Defined.

(** Along a run [last_num_fingers] is what the run started with, or the
    finger count of the latest evaluation of [modeGestureDetection1] on one
    hand. *)
Lemma run_last_fingers ins : forall w pre o rest,
  exec ins w = pre ++ o :: rest ->
  (last_num_fingers (statics (before o)) = last_num_fingers (statics w) /\
   Forall (fun x => one_hand_fingers x = None) pre) \/
  (exists p1 oi p2,
     pre = p1 ++ oi :: p2 /\
     one_hand_fingers oi = Some (last_num_fingers (statics (before o))) /\
     Forall (fun x => one_hand_fingers x = None) p2).
Proof.
  induction ins as [|i ins IH]; intros w pre o rest H.
  - destruct pre; discriminate.
  - destruct pre as [|o0 pre]; cbn in H; injection H as H1 H2.
    + subst o. left. cbn. auto.
    + pose proof (step_trigger i w) as T. cbv zeta in T.
      destruct T as (_ & _ & T). rewrite H1 in T.
      destruct (IH _ _ _ _ H2) as [[E F]|(p1 & oi & p2 & -> & E & F)].
      * destruct (one_hand_fingers o0) as [n|] eqn:N.
        -- right. exists [], o0, pre. repeat split; [|assumption].
           rewrite E, T. assumption.
        -- left. split; [congruence|]. constructor; assumption.
      * right. exists (o0 :: p1), oi, p2. auto.
Qed.

(** C7. The gesture "/overhere" is triggered only by an evaluation of
    [modeGestureDetection1] on one hand with five fingers that finds
    [last_num_fingers] at 5, as the previous evaluation on one hand left it,
    a hand with five fingers too, and that finds the gesture timer expired. *)
Theorem C7_gesture_needs_five_fingers_twice ins w pre oj post :
  exec ins w = pre ++ oj :: post ->
  last_num_fingers (statics w) <> 5 ->
  gesture_triggered oj = true ->
  In (triggerAndReviseString "/overhere") (events oj) /\
  one_hand_fingers oj = Some 5 /\
  last_num_fingers (statics (before oj)) = 5 /\
  fires mGestureTimer LLLEAP_GESTURE_INTERVAL oj /\
  exists p1 oi p2,
    pre = p1 ++ oi :: p2 /\
    one_hand_fingers oi = Some 5 /\
    Forall (fun o => one_hand_fingers o = None) p2.
Proof.
  intros H Hw Hg.
  destruct (exec_inv _ _ _ _ _ H) as (Ej & _). apply obs_eta in Ej.
  pose proof (step_trigger (input oj) (before oj)) as T. cbv zeta in T.
  rewrite <- Ej in T. destruct T as (_ & T & _). rewrite Hg in T.
  destruct T as (T1 & T2 & T3 & T4).
  split; [|split; [assumption | split; [assumption | split]]].
  - rewrite Ej in T1 |- *.
    destruct (step_gesture_eval _ _ _ T1) as (env & hand & _ & E5 & _ & Et & _).
    unfold events. cbn [out]. rewrite Et. right.
    pose proof (modeGestureDetection1_one_hand env hand
                  (set_mFrameAvailable false (before oj))) as G.
    cbv zeta in G. destruct G as (_ & _ & G).
    rewrite Ej in Hg. unfold gesture_triggered, events in Hg. cbn [out] in Hg.
    rewrite Et in Hg. cbn [existsb is_gesture orb] in Hg. rewrite Hg in G.
    destruct G as (_ & _ & _ & _ & ->). left. reflexivity.
  - split; [assumption|]. rewrite Ej at 1. exact T4.
  - destruct (run_last_fingers _ _ _ _ _ H) as [[E _]|(p1 & oi & p2 & E & N & F)].
    + congruence.
    + exists p1, oi, p2. rewrite T2 in N. auto.
Qed.

Lemma C7_gesture_needs_five_fingers_twice_witness :
  one_hand_fingers (nth 6 (exec wave_run world0) no_obs) = Some 5 /\
  last_num_fingers (statics (before (nth 6 (exec wave_run world0) no_obs)))
  = 5.
Proof.
  destruct (C7_gesture_needs_five_fingers_twice wave_run world0
              (firstn 6 (exec wave_run world0))
              (nth 6 (exec wave_run world0) no_obs) [])
    as (_ & H1 & H2 & _).
  - vm_compute. reflexivity.
  - vm_compute. discriminate.
  - vm_compute. reflexivity.
  - split; assumption.
Defined.

(** Along a run [trigger_direction] leaves the value 1 only by a reset
    event. *)
Lemma run_trigger ins : forall w mid o rest,
  exec ins w = mid ++ o :: rest ->
  trigger_direction (statics w) = 1 ->
  trigger_direction (statics (before o)) <> 1 ->
  exists m1 ok m2, mid = m1 ++ ok :: m2 /\ trigger_reset ok = true.
Proof.
  induction ins as [|i ins IH]; intros w mid o rest H Hw Ho.
  - destruct mid; discriminate.
  - destruct mid as [|o0 mid]; cbn in H; injection H as H1 H2.
    + subst o. cbn in Ho. contradiction.
    + pose proof (step_trigger i w) as T. cbv zeta in T.
      destruct T as (T & _). rewrite H1 in T.
      destruct (gunfire o0).
      * lia.
      * destruct T as [T|T].
        -- destruct (IH _ _ _ _ H2) as (m1 & ok & m2 & -> & R);
             [congruence | assumption |].
           exists (o0 :: m1), ok, m2. auto.
        -- exists [], o0, mid. auto.
Qed.

(** C9. Gunfire attempts alternate with resets. [trigger_direction] starts
    at -1; a gunfire attempt is made only when it is negative, and sets it
    to 1; it goes back to -1 only in a reset event, an evaluation of one hand
    that shows one finger, or two fingers with the barrel finger not pointing
    into the screen, or two fingers with the thumb pulled back; so between
    two gunfire attempts there is a reset event. *)
Theorem C9_gunfire_alternates_with_resets ins w pre oi mid oj post :
  exec ins w = pre ++ oi :: mid ++ oj :: post ->
  trigger_direction initial_statics = -1 /\
  (gunfire oj = true ->
   trigger_direction (statics (before oj)) < 0 /\
   trigger_direction (statics (after oj)) = 1) /\
  (trigger_direction (statics (after oj)) = -1 ->
   trigger_direction (statics (before oj)) <> -1 ->
   trigger_reset oj = true) /\
  (gunfire oi = true -> gunfire oj = true ->
   exists m1 ok m2, mid = m1 ++ ok :: m2 /\ trigger_reset ok = true).
Proof.
  intros H.
  destruct (exec_inv _ _ _ _ _ H) as (Ei & ins1 & H1). symmetry in H1.
  destruct (exec_inv _ _ _ _ _ H1) as (Ej & _).
  apply obs_eta in Ei, Ej.
  pose proof (step_trigger (input oi) (before oi)) as Ti.
  pose proof (step_trigger (input oj) (before oj)) as Tj.
  cbv zeta in Ti, Tj. rewrite <- Ei in Ti. rewrite <- Ej in Tj.
  destruct Ti as (Ti & _), Tj as (Tj & _).
  change (world (step (input oi) (before oi)))
    with (after (mkObs (input oi) (before oi) (step (input oi) (before oi))))
    in Ti.
  change (world (step (input oj) (before oj)))
    with (after (mkObs (input oj) (before oj) (step (input oj) (before oj))))
    in Tj.
  rewrite <- Ei in Ti. rewrite <- Ej in Tj.
  split; [reflexivity | split; [|split]].
  - intros G. rewrite G in Tj. destruct Tj as (? & ? & _). auto.
  - intros A B. destruct (gunfire oj).
    + destruct Tj as (_ & ? & _). lia.
    + destruct Tj as [Tj|Tj]; [congruence | assumption].
  - intros Gi Gj. rewrite Gi in Ti. rewrite Gj in Tj.
    destruct Ti as (_ & Ti & _), Tj as (Tj & _).
    apply (run_trigger _ _ _ _ _ H1 Ti). lia.
Qed.

Lemma C9_gunfire_alternates_with_resets_witness :
  gunfire (nth 3 (exec gun_run world0) no_obs) = true /\
  gunfire (nth 9 (exec gun_run world0) no_obs) = true /\
  exists m1 ok m2,
    firstn 5 (skipn 4 (exec gun_run world0)) = m1 ++ ok :: m2 /\
    trigger_reset ok = true.
Proof.
  split; [vm_compute; reflexivity | split; [vm_compute; reflexivity|]].
  refine (proj2 (proj2 (proj2
    (C9_gunfire_alternates_with_resets gun_run world0
       (firstn 3 (exec gun_run world0))
       (nth 3 (exec gun_run world0) no_obs)
       (firstn 5 (skipn 4 (exec gun_run world0)))
       (nth 9 (exec gun_run world0) no_obs)
       [] _))) _ _).
  - vm_compute. reflexivity.
  - vm_compute. reflexivity.
  - vm_compute. reflexivity.
Defined.

(** C5. The chat channel is inert. [modeStreamDataToSL] emits nothing at
    all, whatever the hands: all it does is to arm the chat timer again when
    there is exactly one hand and the timer has expired. No event of
    [modeGestureDetection1] is a chat send: where the gunfire chat would be
    sent, only the log line is emitted. *)
Theorem C5_chat_channel_is_inert env hands w :
  trace (modeStreamDataToSL env hands w) = [] /\
  faults (modeStreamDataToSL env hands w) = [] /\
  world (modeStreamDataToSL env hands w)
  = (if (Leap.count hands =? 1)
        && negb (clock env <? mExpirationTicks (mChatMsgTimer (impl w)))
     then set_mChatMsgTimer
            (mkTimer (clock env + LLLEAP_CHAT_MSG_INTERVAL)) w
     else w) /\
  filter is_chat (trace (modeGestureDetection1 env hands w)) = [] /\
  (existsb is_gunfire (trace (modeGestureDetection1 env hands w)) = true ->
   trace (modeGestureDetection1 env hands w)
   = [llinfos [Text "Sent gunfire chat"]]).
Proof.
  destruct (modeStreamDataToSL_effect env hands w) as (S1 & S2 & S3).
  split; [assumption | split; [assumption | split; [assumption | split]]].
  - apply filter_none with (g := fun e => is_log e || is_gesture e);
      [| apply modeGestureDetection1_emits].
    intros [] H; try discriminate H; reflexivity.
  - destruct (Z.eqb_spec (Leap.count hands) 1) as [E|E].
    + apply count_one in E as [hand ->].
      pose proof (modeGestureDetection1_one_hand env hand w) as G.
      cbv zeta in G. destruct G as (_ & G & _).
      intros F. rewrite F in G. apply G.
    + rewrite modeGestureDetection1_idle by assumption. discriminate.
Qed.

Lemma C5_chat_channel_is_inert_witness :
  trace (modeGestureDetection1 (host 2 false 300000)
           [gun_hand (vec 100 0 (-100))] world0)
  = [llinfos [Text "Sent gunfire chat"]].
Proof.
  apply (C5_chat_channel_is_inert (host 2 false 300000)
           [gun_hand (vec 100 0 (-100))] world0).
  vm_compute. reflexivity.
Defined.

Lemma C2_frame_flag_is_consumed_once_witness :
  mFrameAvailable
    (impl (world (stepFrame (host 2 false 0)
                    (ready_world (frame_of 7 [fist]))))) = false.
Proof.
  apply (proj1 (proj2 (proj2 (proj2 C2_frame_flag_is_consumed_once)))
           (host 2 false 0) (ready_world (frame_of 7 [fist]))
           (Leap.mkController (frame_of 7 [fist])));
    reflexivity.
Defined.

Lemma C10_wrapper_forwards_only_when_started_witness :
  LLLeapMotionController.stepFrame 1 (host 0 true 100000)
    (LLLeapMotionController.mk
       (Some (impl (ready_world (frame_of 7 [three_fingers]))))
       initial_statics)
  = (LLLeapMotionController.mk
       (Some (impl (ready_world (frame_of 7 [three_fingers]))))
       initial_statics, [], []).
Proof.
  apply (proj1 (C10_wrapper_forwards_only_when_started 1
                  (host 0 true 100000)
                  (LLLeapMotionController.mk
                     (Some (impl (ready_world (frame_of 7 [three_fingers]))))
                     initial_statics))).
  cbn. discriminate.
Defined.

(* ================================================================== *)
(** * Connection, notification and poll together *)

(** [onConnect] stores frame id 0: the next notification raises the flag
    unless its frame has id 0, whatever id was stored before. *)
Theorem onConnect_then_onFrame c1 c w :
  let w' := world (onFrame c (world (onConnect c1 w))) in
  mLMConnected (impl w') = true /\
  mCurrentFrameID (impl w') = Leap.id (Leap.frame c) /\
  mFrameAvailable (impl w')
  = (mFrameAvailable (impl w) || negb (Leap.id (Leap.frame c) =? 0)).
Proof.
  cbv zeta. unfold onFrame, onConnect, bind, get, modify, emit.
  cbn [value world trace faults set_mLMConnected set_mCurrentFrameID impl
       mLMConnected mCurrentFrameID].
  destruct (Z.eqb_spec (Leap.id (Leap.frame c)) 0) as [E|E];
    cbn [negb value world ret modify set_mCurrentFrameID set_mFrameAvailable
         impl mLMConnected mCurrentFrameID mFrameAvailable].
  - rewrite orb_false_r. auto.
  - rewrite orb_true_r. auto.
Qed.

(** While the device is disconnected the poll does nothing and a waiting
    frame stays waiting; after the device has connected again the poll
    processes the latest frame of the controller, without a new
    notification. *)
Theorem waiting_frame_survives_reconnect env c1 c2 w c :
  mLMController (impl w) = Some c ->
  mFrameAvailable (impl w) = true ->
  let wd := world (onDisconnect c1 w) in
  let wc := world (onConnect c2 wd) in
  stepFrame env wd = ret tt wd /\
  mFrameAvailable (impl wd) = true /\
  stepFrame env wc
  = match mode_of_setting (LeapmotionTestMode env) with
    | Some m =>
        (emit (Invoke m) ;;
         mode_function m env (Leap.hands (Leap.frame c)))
          (set_mFrameAvailable false wc)
    | None => ret tt (set_mFrameAvailable false wc)
    end.
Proof.
  intros Hc Ha wd wc. split; [|split].
  - apply stepFrame_idle. subst wd. cbn. rewrite Hc, Ha. reflexivity.
  - subst wd. cbn. assumption.
  - apply stepFrame_dispatch; subst wc wd; cbn; auto.
Qed.

Lemma waiting_frame_survives_reconnect_witness :
  filter is_invoke
    (trace (stepFrame (host 2 false 0)
              (world (onConnect (Leap.mkController (frame_of 0 []))
                        (world (onDisconnect
                                  (Leap.mkController (frame_of 0 []))
                                  (ready_world (frame_of 7 [fist])))))))) 
  = [Invoke GestureDetection1].
Proof.
  rewrite (proj2 (proj2
    (waiting_frame_survives_reconnect (host 2 false 0)
       (Leap.mkController (frame_of 0 []))
       (Leap.mkController (frame_of 0 []))
       (ready_world (frame_of 7 [fist]))
       (Leap.mkController (frame_of 7 [fist])) eq_refl eq_refl))).
  reflexivity.
Defined.

(** A frame is processed once: when a frame has been announced and polled,
    announcing the same frame again does not raise the flag. *)
Theorem same_frame_is_not_processed_again env c w k :
  mLMController (impl w) = Some k ->
  mLMConnected (impl w) = true ->
  mFrameAvailable
    (impl (world (onFrame c (world (stepFrame env (world (onFrame c w)))))))
  = false.
Proof.
  intros Hk Hn.
  set (w1 := world (onFrame c w)).
  assert (H1 : mLMController (impl w1) = Some k /\
               mLMConnected (impl w1) = true /\
               mCurrentFrameID (impl w1) = Leap.id (Leap.frame c)).
  { subst w1. unfold onFrame, bind, get. cbn [value world trace faults].
    rewrite Hn. destruct (Z.eqb_spec (Leap.id (Leap.frame c))
                            (mCurrentFrameID (impl w))) as [E|E]; cbn; auto. }
  destruct H1 as (K1 & N1 & I1).
  set (w2 := world (stepFrame env w1)).
  assert (H2 : mLMConnected (impl w2) = true /\
               mCurrentFrameID (impl w2) = Leap.id (Leap.frame c) /\
               mFrameAvailable (impl w2) = false).
  { pose proof (stepFrame_leaves_no_frame env w1) as L. fold w2 in L.
    subst w2. destruct (mFrameAvailable (impl w1)) eqn:A1.
    - rewrite (stepFrame_dispatch env w1 k K1 A1 N1) in *.
      destruct (mode_of_setting _) as [m|].
      + rewrite world_bind in *. cbn [emit value world] in *.
        destruct (mode_function_same_flags m env (Leap.hands (Leap.frame k))
                    (set_mFrameAvailable false w1)) as (E1 & E2 & E3 & E4).
        rewrite E2, E3, E4. cbn. auto.
      + cbn. auto.
    - rewrite stepFrame_idle by (rewrite K1, A1; reflexivity). cbn. auto. }
  destruct H2 as (N2 & I2 & A2).
  unfold onFrame, bind, get. cbn [value world trace faults].
  rewrite N2, I2, Z.eqb_refl. cbn. assumption.
Qed.

Lemma same_frame_is_not_processed_again_witness :
  mFrameAvailable
    (impl (world (onFrame (Leap.mkController (frame_of 8 [fist]))
       (world (stepFrame (host 2 false 0)
          (world (onFrame (Leap.mkController (frame_of 8 [fist]))
                    (ready_world (frame_of 7 [fist])))))))))
  = false.
Proof.
  apply (same_frame_is_not_processed_again (host 2 false 0)
           (Leap.mkController (frame_of 8 [fist]))
           (ready_world (frame_of 7 [fist]))
           (Leap.mkController (frame_of 7 [fist]))); reflexivity.
Defined.

(** The callbacks of the SDK and a new frame in the controller never act:
    they call nothing but the log, are free of faults, and leave the statics
    and the timers as they are. Actions come from the poll only. *)
Theorem only_the_poll_acts i w :
  is_poll i = false ->
  filter is_action (trace (step i w)) = [] /\
  filter is_invoke (trace (step i w)) = [] /\
  faults (step i w) = [] /\
  statics (world (step i w)) = statics w /\
  mYawTimer (impl (world (step i w))) = mYawTimer (impl w) /\
  mChatMsgTimer (impl (world (step i w))) = mChatMsgTimer (impl w) /\
  mGestureTimer (impl (world (step i w))) = mGestureTimer (impl w).
Proof.
  destruct i as [c|c|c|c|f|env]; cbn [is_poll step]; intros H;
    try discriminate H; try (repeat split; fail).
  unfold onFrame, bind, get. cbn [value world trace faults].
  destruct (mLMConnected (impl w)); [|repeat split].
  destruct (negb _); repeat split.
Qed.

Lemma only_the_poll_acts_witness :
  filter is_action
    (trace (step (OnFrame (Leap.mkController (frame_of 8 [open_hand])))
              (ready_world (frame_of 7 [fist])))) = [].
Proof.
  apply (only_the_poll_acts
           (OnFrame (Leap.mkController (frame_of 8 [open_hand])))
           (ready_world (frame_of 7 [fist]))).
  reflexivity.
Defined.

(** Nothing is processed before the device connects: in a run without
    [onConnect] from a world that is not connected, as the constructor
    leaves it, no poll reaches a mode and nothing but log lines is
    emitted. *)
Theorem nothing_before_connect ins : forall w,
  forallb (fun i => negb (is_connect i)) ins = true ->
  mLMConnected (impl w) = false ->
  Forall (fun o => polled o = None /\
                   mLMConnected (impl (after o)) = false /\
                   forallb plain_log (events o) = true /\
                   statics (after o) = statics w)
    (exec ins w).
Proof.
  induction ins as [|i ins IH]; intros w Hi Hw; cbn [exec]; [constructor|].
  cbn [forallb] in Hi. apply andb_true_iff in Hi as [Hc Hi].
  assert (S : polled (mkObs i w (step i w)) = None /\
              mLMConnected (impl (world (step i w))) = false /\
              forallb plain_log (trace (step i w)) = true /\
              statics (world (step i w)) = statics w).
  { destruct i as [c|c|c|c|f|env]; cbn [is_connect negb] in Hc;
      try discriminate Hc; cbn [step].
    - repeat split. cbn. assumption.
    - repeat split.
    - unfold polled, onFrame, bind, get.
      cbn [input value world trace faults]. rewrite Hw. repeat split.
      cbn. assumption.
    - unfold polled, set_frame. cbn. repeat split. assumption.
    - unfold polled. cbn [input before].
      rewrite stepFrame_idle
        by (rewrite Hw, andb_false_r;
            destruct (mLMController (impl w)); reflexivity).
      rewrite Hw, andb_false_r. cbn.
      destruct (mLMController (impl w)); auto. }
  destruct S as (S1 & S2 & S3 & S4).
  constructor.
  - cbn. auto.
  - specialize (IH (world (step i w)) Hi S2).
    eapply Forall_impl; [|exact IH].
    intros o (A & B & C & D). rewrite D, S4. auto.
Qed.

Lemma nothing_before_connect_witness :
  Forall (fun o => polled o = None /\
                   mLMConnected (impl (after o)) = false /\
                   forallb plain_log (events o) = true /\
                   statics (after o) = statics world0)
    (exec (feed 1 [open_hand] (host 2 false 3100000)) world0).
Proof.
  apply (nothing_before_connect
           (feed 1 [open_hand] (host 2 false 3100000)) world0);
    reflexivity.
Defined.

(* ================================================================== *)
(** * Runs from the constructor *)

(** The constructor arms the three timers: after an object has been
    constructed at tick [now], no yaw turn happens before 0.075 s, no chat
    attempt before 0.2 s and no gesture before 3 s have passed. *)
Theorem first_action_waits_for_interval ins c now pre o post :
  exec ins (initial_world c now) = pre ++ o :: post ->
  (yaw_turn o = true -> now + LLLEAP_YAW_INTERVAL <= tick o) /\
  (chat_attempt o = true -> now + LLLEAP_CHAT_MSG_INTERVAL <= tick o) /\
  (gesture_triggered o = true -> now + LLLEAP_GESTURE_INTERVAL <= tick o).
Proof.
  intros H.
  destruct (exec_inv _ _ _ _ _ H) as (E & _). apply obs_eta in E.
  pose proof (run_timers_later _ _ _ _ _ H) as (Ly & Lc & Lg).
  cbn in Ly, Lc, Lg.
  split; [|split]; intros A; rewrite E in A.
  - destruct (step_yaw_turn _ _ A) as [X _]. rewrite <- E in X.
    unfold LLLEAP_YAW_INTERVAL in *. lia.
  - destruct (step_chat_attempt _ _ A) as [X _]. rewrite <- E in X.
    unfold LLLEAP_CHAT_MSG_INTERVAL in *. lia.
  - pose proof (step_trigger (input o) (before o)) as T. cbv zeta in T.
    destruct T as (_ & T & _). rewrite A in T.
    destruct T as (_ & _ & X & _). rewrite <- E in X.
    unfold LLLEAP_GESTURE_INTERVAL in *. lia.
Qed.

Lemma first_action_waits_for_interval_witness :
  (yaw_turn (nth 3 (exec turn_run world0) no_obs) = true /\
   0 + LLLEAP_YAW_INTERVAL <= tick (nth 3 (exec turn_run world0) no_obs)) /\
  (chat_attempt (nth 3 (exec stream_run world0) no_obs) = true /\
   0 + LLLEAP_CHAT_MSG_INTERVAL
   <= tick (nth 3 (exec stream_run world0) no_obs)) /\
  (gesture_triggered (nth 6 (exec wave_twice_run world0) no_obs) = true /\
   0 + LLLEAP_GESTURE_INTERVAL
   <= tick (nth 6 (exec wave_twice_run world0) no_obs)).
Proof.
  split; [|split]; (split; [vm_compute; reflexivity|]).
  - refine (proj1
      (first_action_waits_for_interval turn_run
         (Leap.mkController (frame_of 0 [])) 0
         (firstn 3 (exec turn_run world0))
         (nth 3 (exec turn_run world0) no_obs)
         (skipn 4 (exec turn_run world0)) _) _); vm_compute; reflexivity.
  - refine (proj1 (proj2
      (first_action_waits_for_interval stream_run
         (Leap.mkController (frame_of 0 [])) 0
         (firstn 3 (exec stream_run world0))
         (nth 3 (exec stream_run world0) no_obs)
         (skipn 4 (exec stream_run world0)) _)) _); vm_compute; reflexivity.
  - refine (proj2 (proj2
      (first_action_waits_for_interval wave_twice_run
         (Leap.mkController (frame_of 0 [])) 0
         (firstn 6 (exec wave_twice_run world0))
         (nth 6 (exec wave_twice_run world0) no_obs)
         (skipn 7 (exec wave_twice_run world0)) _)) _); vm_compute; reflexivity.
Defined.






(** Along a run that starts with the hysteresis counter between 0 and 5 and
    [trigger_direction] at -1 or 1, as the program starts, the counter stays
    between 0 and 5, [trigger_direction] stays -1 or 1, and
    [last_num_fingers] stays a count. *)
Theorem statics_stay_in_range ins : forall w,
  0 <= sLMFlyingHysteresis (statics w) <= 5 ->
  trigger_direction (statics w) = -1 \/ trigger_direction (statics w) = 1 ->
  0 <= last_num_fingers (statics w) ->
  Forall (fun o =>
            0 <= sLMFlyingHysteresis (statics (after o)) <= 5 /\
            (trigger_direction (statics (after o)) = -1 \/
             trigger_direction (statics (after o)) = 1) /\
            0 <= last_num_fingers (statics (after o)))
    (exec ins w).
Proof.
  induction ins as [|i ins IH]; intros w Hh Ht Hl; cbn [exec];
    [constructor|].
  assert (S : 0 <= sLMFlyingHysteresis (statics (world (step i w))) <= 5 /\
              (trigger_direction (statics (world (step i w))) = -1 \/
               trigger_direction (statics (world (step i w))) = 1) /\
              0 <= last_num_fingers (statics (world (step i w)))).
  { split; [|split].
    - assert (B : sLMFlyingHysteresis (statics w) < 2 ^ 31)
        by (change (2 ^ 31) with 2147483648; lia).
      pose proof (step_counter i w B) as C. cbv zeta in C.
      destruct C as [_ C]. destruct (starts_flight _); lia.
    - pose proof (step_trigger i w) as T. cbv zeta in T.
      destruct T as (T & _). destruct (gunfire _).
      + right. apply T.
      + destruct T as [T|T]; [rewrite T; assumption|].
        left. unfold trigger_reset in T.
        destruct (evaluates 2 _) as [[? [|? [|]]]|]; try discriminate.
        apply andb_true_iff in T as [_ T]. now apply Z.eqb_eq in T.
    - pose proof (step_trigger i w) as T. cbv zeta in T.
      destruct T as (_ & _ & ->).
      destruct (one_hand_fingers _) as [n|] eqn:N; [|assumption].
      unfold one_hand_fingers in N.
      destruct (evaluates 2 _) as [[? [|? [|]]]|]; try discriminate.
      injection N as <-. apply count_nonneg. }
  destruct S as (S1 & S2 & S3).
  constructor; [cbn; auto|]. apply IH; assumption.
Qed.

Lemma statics_stay_in_range_witness :
  Forall (fun o =>
            0 <= sLMFlyingHysteresis (statics (after o)) <= 5 /\
            (trigger_direction (statics (after o)) = -1 \/
             trigger_direction (statics (after o)) = 1) /\
            0 <= last_num_fingers (statics (after o)))
    (exec flight_run world0).
Proof.
  apply (statics_stay_in_range flight_run world0); cbn; auto; lia.
Defined.

(** No run sends chat, and no callback or poll of a mode other than
    [modeFlyingControlTest] toggles the flight. *)
Theorem no_run_sends_chat ins : forall w,
  Forall (fun o => filter is_chat (events o) = [] /\
                   (flying_evaluation o = false ->
                    filter is_toggle (events o) = []))
    (exec ins w).
Proof.
  induction ins as [|i ins IH]; intros w; cbn [exec]; constructor;
    [|apply IH].
  unfold events. cbn [out]. split.
  - destruct (step_cases i w) as [(_ & _ & _ & _ & _ & L)|(env & c & -> & _ & ->)].
    + apply filter_none with (2 := L). intros [] H; try discriminate H.
      reflexivity.
    + destruct (mode_of_setting _) as [m|]; [|reflexivity].
      rewrite trace_bind. cbn [emit trace app filter is_chat].
      apply filter_none with (2 := mode_function_quiet m env _ _).
      intros e H. unfold quiet, not_chat in H.
      apply andb_true_iff in H as [_ H]. now apply negb_true_iff in H.
  - intros F. destruct (step_not_flying i w F) as (S1 & S2 & _).
    unfold stops_flight, starts_flight, events in S1, S2. cbn [out] in S1, S2.
    induction (trace (step i w)) as [|e l IHl]; [reflexivity|].
    cbn [existsb] in S1, S2.
    apply orb_false_iff in S1 as [A1 A2], S2 as [B1 B2].
    cbn [filter]. destruct e as [| | [] | | | | | | | | | | | | |];
      try discriminate; cbn [is_toggle]; auto.
Qed.

(* ================================================================== *)
(** * The modes on their inputs *)

(** Every mode ignores a frame with two hands or more, and every mode but
    [modeFlyingControlTest] ignores a frame without hands: the world stays as
    it is and nothing is emitted. *)
Theorem modes_want_one_hand m env hands w :
  Leap.count hands <> 1 ->
  m <> FlyingControlTest \/ Leap.count hands <> 0 ->
  mode_function m env hands w = ret tt w.
Proof.
  intros H1 H0.
  apply Z.eqb_neq in H1.
  destruct m; cbn [mode_function].
  - destruct H0 as [H0|H0]; [congruence|]. apply Z.eqb_neq in H0.
    unfold modeFlyingControlTest, bind, get.
    cbn [value world trace faults]. rewrite H0, H1. reflexivity.
  - unfold modeStreamDataToSL, bind. rewrite H1. reflexivity.
  - unfold modeGestureDetection1. rewrite H1. reflexivity.
  - unfold modeMoveAndCamTest1. rewrite H1. reflexivity.
  - unfold modeDumpDebugInfo. rewrite H1. reflexivity.
Qed.

Lemma modes_want_one_hand_witness :
  mode_function FlyingControlTest (host 0 true 0) [fist; open_hand] world0
  = ret tt world0.
Proof.
  apply (modes_want_one_hand FlyingControlTest (host 0 true 0)
           [fist; open_hand] world0).
  - vm_compute. discriminate.
  - right. vm_compute. discriminate.
Defined.

Lemma forallb_false_nil {A : Type} (l : list A) :
  forallb (fun _ => false) l = true -> l = [].
Proof. destruct l; [reflexivity|discriminate]. Qed.

Lemma unchanged_refl w : unchanged w w.
Proof. reflexivity. Qed.

Lemma unchanged_trans w1 w2 w3 :
  unchanged w1 w2 -> unchanged w2 w3 -> unchanged w1 w3.
Proof. unfold unchanged. congruence. Qed.

Lemma everything_related {A : Type} (m : M A) :
  respects any_worlds m ->
  forall w1 w2, trace (m w1) = trace (m w2) /\ faults (m w1) = faults (m w2).
Proof. intros R w1 w2. destruct (R w1 w2 I) as (_ & ? & ? & _). auto. Qed.

(** [modeMoveAndCamTest1] and [modeDumpDebugInfo] have no memory: they leave
    the world as it is, and what they emit depends on the hands alone, not
    on the world, the clock or the other answers of the host. *)
Theorem camera_and_dump_modes_have_no_memory hands env1 env2 w1 w2 :
  world (modeMoveAndCamTest1 env1 hands w1) = w1 /\
  world (modeDumpDebugInfo env1 hands w1) = w1 /\
  trace (modeMoveAndCamTest1 env1 hands w1)
  = trace (modeMoveAndCamTest1 env2 hands w2) /\
  trace (modeDumpDebugInfo env1 hands w1)
  = trace (modeDumpDebugInfo env2 hands w2) /\
  forallb is_log (trace (modeDumpDebugInfo env1 hands w1)) = true.
Proof.
  split; [|split; [|split; [|split]]].
  - assert (K : keeps unchanged (modeMoveAndCamTest1 env1 hands)).
    { unfold modeMoveAndCamTest1.
      keeps_tac unchanged_refl unchanged_trans. }
    apply K.
  - assert (K : keeps unchanged (modeDumpDebugInfo env1 hands)).
    { unfold modeDumpDebugInfo.
      keeps_tac unchanged_refl unchanged_trans. }
    apply K.
  - change (modeMoveAndCamTest1 env2) with (modeMoveAndCamTest1 env1).
    apply everything_related.
    unfold modeMoveAndCamTest1. respects_tac.
  - change (modeDumpDebugInfo env2) with (modeDumpDebugInfo env1).
    apply everything_related.
    unfold modeDumpDebugInfo. respects_tac.
  - apply modeDumpDebugInfo_logs.
Qed.

Lemma sum_tipPosition_silent fl n i pos w :
  trace (sum_tipPosition fl n i pos w) = [].
Proof.
  apply forallb_false_nil. apply emits_only_sum_tipPosition.
Qed.

Lemma vector_div_count_silent v n w :
  trace (vector_div_count v n w) = [] /\ world (vector_div_count v n w) = w.
Proof.
  unfold vector_div_count, div_count. destruct (n =? 0); split; reflexivity.
Qed.

Lemma sum_tipPosition_world fl n : forall i pos w,
  world (sum_tipPosition fl n i pos w) = w.
Proof.
  induction n as [|n IH]; intros i pos w; cbn [sum_tipPosition];
    [reflexivity|].
  rewrite world_bind, IH. unfold at_index. destruct (_ && _); reflexivity.
Qed.

(** In [modeMoveAndCamTest1] one finger moves the avatar only, with at most
    one nudge and at most one turn; two fingers move the camera only, every
    orbit key comes right after [unlockView], and there is at most one orbit
    key for each axis; any other number of fingers does nothing. *)
Theorem fingers_choose_avatar_or_camera env hand w :
  let t := trace (modeMoveAndCamTest1 env [hand] w) in
  let n := Leap.count (Leap.fingers hand) in
  (n = 1 ->
   forallb is_avatar_move t = true /\
   (List.length (filter is_nudge t) <= 1)%nat /\
   (List.length (filter is_yaw t) <= 1)%nat /\
   (List.length t <= 2)%nat) /\
  (n = 2 ->
   unlock_then_key t = true /\
   (List.length (filter is_orbit_x t) <= 1)%nat /\
   (List.length (filter is_orbit_z t) <= 1)%nat /\
   (List.length (filter is_orbit_y t) <= 1)%nat /\
   (List.length t <= 6)%nat) /\
  (n <> 1 -> n <> 2 -> t = []).
Proof.
  cbv zeta. unfold modeMoveAndCamTest1.
  change (Leap.count [hand] =? 1) with true. cbv iota.
  rewrite at_index_single. unfold orbit_axis.
  rewrite !trace_bind. cbn [ret trace value world app].
  rewrite ?world_bind, ?value_bind. cbn [ret trace value world app].
  rewrite sum_tipPosition_silent, ?sum_tipPosition_world.
  set (V := vector_div_count _ _ w).
  destruct (vector_div_count_silent
              (value (sum_tipPosition (Leap.fingers hand)
                        (Z.to_nat (Leap.count (Leap.fingers hand))) 0
                        Leap.zero w))
              (Leap.count (Leap.fingers hand)) w) as [Vt Vw].
  fold V in Vt, Vw. rewrite Vt, ?Vw. cbn [app].
  generalize (value V). clear V Vt Vw. intros pos.
  symex;
    cbn [forallb is_avatar_move unlock_then_key is_orbit_key andb
         filter is_nudge is_yaw is_orbit_x is_orbit_z is_orbit_y
         List.length app];
    bool_facts; repeat split; intros; try lia; try reflexivity;
    try congruence.
Qed.

Lemma fingers_choose_avatar_or_camera_witness :
  trace (modeMoveAndCamTest1 (host 3 false 0) [pointing_hand] world0)
  = [moveLeftNudge (F32_of_Z (-1)); moveYaw (F32_of_Z 1)] /\
  forallb is_avatar_move
    (trace (modeMoveAndCamTest1 (host 3 false 0) [pointing_hand] world0))
  = true /\
  (List.length
     (filter is_nudge
        (trace (modeMoveAndCamTest1 (host 3 false 0) [pointing_hand] world0)))
   <= 1)%nat /\
  (List.length
     (filter is_yaw
        (trace (modeMoveAndCamTest1 (host 3 false 0) [pointing_hand] world0)))
   <= 1)%nat /\
  (List.length
     (trace (modeMoveAndCamTest1 (host 3 false 0) [pointing_hand] world0))
   <= 2)%nat.
Proof.
  split; [vm_compute; reflexivity|].
  apply (proj1 (fingers_choose_avatar_or_camera (host 3 false 0)
                  pointing_hand world0)).
  vm_compute. reflexivity.
Defined.

(** The two ways to stop the flight differ by one evaluation. While flying,
    a poll without hands lowers a positive counter and stops the flight
    when the counter reaches 0, and it never stops the flight when the counter
    is not positive; a poll of one hand without fingers lowers a positive
    counter without stopping, and stops the flight when it finds the counter
    not positive. *)
Theorem stop_paths_differ_by_one env hand w :
  let h := sLMFlyingHysteresis (statics w) in
  getFlying env = true ->
  Leap.count (Leap.fingers hand) = 0 ->
  h < 2 ^ 31 ->
  existsb is_stop_flying (trace (modeFlyingControlTest env [] w))
  = (h =? 1) /\
  sLMFlyingHysteresis (statics (world (modeFlyingControlTest env [] w)))
  = (if 0 <? h then h - 1 else h) /\
  existsb is_stop_flying (trace (modeFlyingControlTest env [hand] w))
  = (h <=? 0) /\
  sLMFlyingHysteresis (statics (world (modeFlyingControlTest env [hand] w)))
  = (if 0 <? h then h - 1 else h).
Proof.
  cbv zeta. intros Hf Hn Hh.
  assert (A : existsb is_stop_flying (trace (modeFlyingControlTest env [] w))
              = (sLMFlyingHysteresis (statics w) =? 1) /\
              sLMFlyingHysteresis
                (statics (world (modeFlyingControlTest env [] w)))
              = (if 0 <? sLMFlyingHysteresis (statics w)
                 then sLMFlyingHysteresis (statics w) - 1
                 else sLMFlyingHysteresis (statics w))).
  { unfold modeFlyingControlTest.
    change (Leap.count (@nil Leap.Hand) =? 0) with true.
    change (Leap.count (@nil Leap.Hand) =? 1) with false.
    rewrite Hf. mstep. cbn [andb].
    destruct (Z.ltb_spec 0 (sLMFlyingHysteresis (statics w))) as [P|P].
    - rewrite (proj2 (Z.gtb_lt _ _) P). mstep.
      cbn [set_sLMFlyingHysteresis statics sLMFlyingHysteresis].
      rewrite S32_wrap_small by lia.
      destruct (Z.eqb_spec (sLMFlyingHysteresis (statics w) - 1) 0) as [E|E];
        mstep; cbn [existsb is_stop_flying orb set_sLMFlyingHysteresis
                    statics sLMFlyingHysteresis];
        split; try reflexivity; symmetry;
        [apply Z.eqb_eq | apply Z.eqb_neq]; lia.
    - assert (G : (sLMFlyingHysteresis (statics w) >? 0) = false).
      { rewrite Z.gtb_ltb. apply Z.ltb_ge. lia. }
      rewrite G. mstep. cbn [existsb]. split; [|reflexivity].
      symmetry. apply Z.eqb_neq. lia. }
  destruct A as [A1 A2].
  split; [assumption | split; [assumption|]].
  unfold modeFlyingControlTest.
  change (Leap.count [hand] =? 0) with false.
  change (Leap.count [hand] =? 1) with true.
  rewrite at_index_single. mstep. cbn [andb]. mstep.
  rewrite Hf, Hn.
  destruct (flying_controls_no_toggle env hand
              (world (flying_on_off true 0 w))) as [N1 _].
  rewrite existsb_app, N1, orb_false_r, flying_controls_world.
  cbn [set_mYawTimer statics].
  unfold flying_on_off. cbn [Z.eqb andb].
  destruct (Z.ltb_spec 0 (sLMFlyingHysteresis (statics w))) as [P|P].
  - mstep. rewrite (proj2 (Z.gtb_lt _ _) P). mstep.
    cbn [existsb set_sLMFlyingHysteresis statics sLMFlyingHysteresis].
    rewrite S32_wrap_small by lia.
    split; [|reflexivity]. symmetry. apply Z.leb_gt. lia.
  - assert (G : (sLMFlyingHysteresis (statics w) >? 0) = false).
    { rewrite Z.gtb_ltb. apply Z.ltb_ge. lia. }
    mstep. rewrite G. mstep. cbn [existsb is_stop_flying orb].
    split; [|reflexivity]. symmetry. apply Z.leb_le. lia.
Qed.

Lemma stop_paths_differ_by_one_witness :
  existsb is_stop_flying
    (trace (modeFlyingControlTest (host 0 true 0) [fist] world0)) = true.
Proof.
  rewrite (proj1 (proj2 (proj2
    (stop_paths_differ_by_one (host 0 true 0) fist world0
       eq_refl eq_refl eq_refl)))).
  reflexivity.
Defined.

(* ================================================================== *)
(** * Floating point at the edges *)

Lemma F32_to_S32_below_one a :
  magnitude_below_one a = true -> F32_to_S32 (llabs a) = 0.
Proof.
  destruct a as [s|s| |s m e]; cbn [magnitude_below_one llabs SFabs];
    try discriminate; [reflexivity|].
  intros H. apply Z.ltb_lt in H. unfold F32_to_S32.
  destruct e as [|p|p]; cbn [Z.opp] in H.
  - change (2 ^ 0) with 1 in H. lia.
  - rewrite Z.pow_neg_r in H by lia. lia.
  - cbn [cond_Zopp]. rewrite Z.quot_small by lia. reflexivity.
Qed.

Lemma zero_is_not_above_a_magnitude a :
  fgt (F32_of_Z 0) (llabs a) = false.
Proof. destruct a as [s|s| |[] m e]; reflexivity. Qed.

(** In the one-finger branch of [modeGestureDetection1] the magnitude of the
    z direction is cut to an integer before it is compared: for a direction
    whose z component is below 1 in magnitude the test fails, and the line
    "finger direction is" is not logged. All such an evaluation emits is the
    line of the reset, when [trigger_direction] is not -1. *)
Theorem one_finger_direction_is_not_logged env hand finger w :
  Leap.fingers hand = [finger] ->
  magnitude_below_one (Leap.z (Leap.direction finger)) = true ->
  points_into_screen_S32 (Leap.direction finger) = false /\
  trace (modeGestureDetection1 env [hand] w)
  = if trigger_direction (statics w) =? -1 then []
    else [llinfos [Text "Reset trigger_direction - one finger"]].
Proof.
  intros Hf Hz.
  assert (P : points_into_screen_S32 (Leap.direction finger) = false).
  { unfold points_into_screen_S32.
    rewrite (F32_to_S32_below_one _ Hz), zero_is_not_above_a_magnitude.
    rewrite andb_false_r. reflexivity. }
  split; [assumption|].
  unfold modeGestureDetection1.
  change (Leap.count [hand] =? 1) with true. cbv iota.
  rewrite at_index_single. mstep. rewrite Hf.
  change (Leap.count [finger] =? 1) with true. cbv iota.
  rewrite at_index_single. mstep. rewrite P. mstep.
  destruct (trigger_direction (statics w) =? -1); reflexivity.
Qed.

Lemma one_finger_direction_is_not_logged_witness :
  trace (modeGestureDetection1 (host 2 false 0)
           [hand_with [Leap.mkFinger (vec 0 0 0) (vec 0 150 0) (vec 0 0 0)]]
           world0) = [].
Proof.
  apply (one_finger_direction_is_not_logged (host 2 false 0)
           (hand_with [Leap.mkFinger (vec 0 0 0) (vec 0 150 0) (vec 0 0 0)])
           (Leap.mkFinger (vec 0 0 0) (vec 0 150 0) (vec 0 0 0)) world0);
    reflexivity.
Defined.

Lemma nan_is_not_below a : flt S754_nan a = false.
Proof. destruct a; reflexivity. Qed.

Lemma nan_is_not_above a : fgt S754_nan a = false.
Proof. destruct a; reflexivity. Qed.

Lemma sum_tipPosition_nan fl n : forall i w,
  value (sum_tipPosition fl n i nan_vector w) = nan_vector.
Proof.
  induction n as [|n IH]; intros i w; cbn [sum_tipPosition];
    [reflexivity|].
  rewrite value_bind. apply IH.
Qed.

(** Numbers that are not numbers move nothing. With NaN for the sphere
    radius, the palm height and the palm normal the flying controls clear
    the forward and the vertical flags and do not turn. With NaN for the tip
    position of the first finger [modeMoveAndCamTest1] emits nothing,
    whatever the number of fingers. *)
Theorem nan_moves_nothing env hand w :
  (Leap.sphereRadius hand = S754_nan ->
   Leap.y (Leap.palmPosition hand) = S754_nan ->
   Leap.x (Leap.palmNormal hand) = S754_nan ->
   trace (flying_controls env hand w)
   = [clearControlFlags [AGENT_CONTROL_AT_POS];
      clearControlFlags [AGENT_CONTROL_FAST_UP; AGENT_CONTROL_UP_POS;
                         AGENT_CONTROL_UP_NEG]]) /\
  (forall finger rest,
     Leap.fingers hand = finger :: rest ->
     Leap.tipPosition finger = nan_vector ->
     trace (modeMoveAndCamTest1 env [hand] w) = []).
Proof.
  split.
  - intros Hr Hy Hx. unfold flying_controls. rewrite Hr, Hy, Hx.
    cbn [F32_to_F64].
    rewrite ?nan_is_not_below, ?nan_is_not_above.
    mstep. destruct (fst _); reflexivity.
  - intros finger rest Hf Ht. unfold modeMoveAndCamTest1.
    change (Leap.count [hand] =? 1) with true. cbv iota.
    rewrite at_index_single. unfold orbit_axis.
    rewrite !trace_bind. cbn [ret trace value world app].
    rewrite ?world_bind, ?value_bind. cbn [ret trace value world app].
    rewrite sum_tipPosition_silent, ?sum_tipPosition_world.
    assert (S : value (sum_tipPosition (Leap.fingers hand)
                         (Z.to_nat (Leap.count (Leap.fingers hand))) 0
                         Leap.zero w) = nan_vector).
    { rewrite Hf. unfold Leap.count. rewrite Nat2Z.id.
      cbn [List.length sum_tipPosition]. rewrite value_bind.
      rewrite at_index_in_range
        by (rewrite count_cons; pose proof (count_nonneg rest); lia).
      cbn [ret value world Z.to_nat nth]. rewrite Ht.
      change (Leap.add Leap.zero nan_vector) with nan_vector.
      apply sum_tipPosition_nan. }
    rewrite S.
    set (n := Leap.count (Leap.fingers hand)).
    assert (V : value (vector_div_count nan_vector n w) = nan_vector /\
                trace (vector_div_count nan_vector n w) = [] /\
                world (vector_div_count nan_vector n w) = w).
    { unfold vector_div_count, div_count. destruct (n =? 0); repeat split. }
    destruct V as (-> & -> & ->).
    cbn [Leap.x Leap.y Leap.z nan_vector app].
    rewrite ?nan_is_not_below, ?nan_is_not_above.
    destruct (n =? 1); [reflexivity|]. destruct (n =? 2); reflexivity.
Qed.

Lemma nan_moves_nothing_witness :
  trace (modeMoveAndCamTest1 (host 3 false 0)
           [hand_with [Leap.mkFinger (vec 0 0 (-1)) nan_vector (vec 0 0 0)]]
           world0) = [].
Proof.
  apply (proj2 (nan_moves_nothing (host 3 false 0)
           (hand_with [Leap.mkFinger (vec 0 0 (-1)) nan_vector (vec 0 0 0)])
           world0)
           (Leap.mkFinger (vec 0 0 (-1)) nan_vector (vec 0 0 0)) []);
    reflexivity.
Defined.

(* ================================================================== *)
(** * When the actions do happen *)

(** The gesture is triggered exactly when the hand shows five fingers, the
    evaluation of one hand before recorded five, and the gesture timer has
    expired; the finger count is recorded whether or not it is triggered. *)
Theorem gesture_fires_exactly_when env hand w :
  let o := modeGestureDetection1 env [hand] w in
  existsb is_gesture (trace o)
  = (Leap.count (Leap.fingers hand) =? 5)
    && (last_num_fingers (statics w) =? 5)
    && (mExpirationTicks (mGestureTimer (impl w)) <=? clock env) /\
  last_num_fingers (statics (world o)) = Leap.count (Leap.fingers hand).
Proof.
  cbv zeta. unfold modeGestureDetection1.
  change (Leap.count [hand] =? 1) with true. cbv iota.
  rewrite at_index_single.
  symex; events; split; try reflexivity;
    repeat match goal with
      | H : _ && _ = _ |- _ => revert H
      | H : (_ =? _) = _ |- _ => revert H
      | H : fst (checkExpirationAndReset _ _ _) = _ |- _ => revert H
      end;
    unfold checkExpirationAndReset;
    repeat match goal with
      | |- context [Z.eqb ?a ?b] => destruct (Z.eqb_spec a b)
      | |- context [Z.leb ?a ?b] => destruct (Z.leb_spec a b)
      | |- context [Z.ltb ?a ?b] => destruct (Z.ltb_spec a b)
      end;
    cbn [andb fst snd]; intros; try reflexivity; try discriminate; try lia.
Qed.

(** The flight is started exactly in the evaluations whose start condition
    holds, one hand with more than two fingers while not flying, and no
    evaluation both starts and stops it. *)
Theorem flight_starts_exactly_when env hands w :
  sLMFlyingHysteresis (statics w) < 2 ^ 31 ->
  existsb is_start_flying (trace (modeFlyingControlTest env hands w))
  = start_condition env hands /\
  (existsb is_stop_flying (trace (modeFlyingControlTest env hands w)) = true
   -> existsb is_start_flying (trace (modeFlyingControlTest env hands w))
      = false).
Proof.
  intros Hh.
  pose proof (modeFlyingControlTest_cases env hands w Hh) as C.
  cbv zeta in C. destruct C as [C1 C2].
  destruct (existsb is_start_flying _) eqn:S.
  - destruct C2 as [C2 _]. split; [congruence|].
    intros T. rewrite T in C1. destruct C1 as [C1 _].
    unfold start_condition in C2. unfold stop_condition in C1.
    destruct (getFlying env); discriminate.
  - destruct C2 as [C2 _]. split; [congruence | reflexivity].
Qed.

Lemma flight_starts_exactly_when_witness :
  existsb is_start_flying
    (trace (modeFlyingControlTest (host 0 false 0) [three_fingers] world0))
  = true.
Proof.
  rewrite (proj1 (flight_starts_exactly_when (host 0 false 0)
                    [three_fingers] world0 eq_refl)).
  reflexivity.
Defined.
